(** * Cache manager of arc-detection-segments: a shallow embedding

    Source: [src/cache/manager.py] (classes [CacheConfiguration],
    [CacheStatus], [FileSequenceManager], [CacheManager]) and
    [src/cache/config_server.py] (route [update_config]).

    Conventions of the embedding:
    - Python [int] is [Z]; Python [float] is the IEEE-754 binary64 type
      [float] of [PrimFloat]; [str] is [string]; [dict] used as a map is
      stdpp's [gmap]; a JSON document of unknown shape is the inductive
      [json], whose objects are association lists in insertion order.
    - A call either returns, raises, or blocks for ever in
      [threading.Lock.acquire]; the three cases are the constructors of
      [outcome].
    - What the code reads from its environment (the clock, the result of
      the SQL query, the state of the cache directories) is an explicit
      argument or a field of the state.  A method that reads the clock
      takes the reading as its argument [now]; the readings of one call
      are not told apart. *)

From Stdlib Require Import ZArith Ascii DecimalString PrimFloat FloatOps SpecFloat.
From stdpp Require Import base gmap list strings.

Set Warnings "-register-all,-inexact-float".

Local Open Scope Z_scope.

(** ** Python built-ins used by the source *)

Module Py.

(** [len(l)] *)
Definition len {A} (l : list A) : Z := Z.of_nat (length l).

(** [l.index(x)]: position of the first element equal to [x];
    [None] stands for [ValueError]. *)
Fixpoint index (x : Z) (l : list Z) : option Z :=
  match l with
  | [] => None
  | y :: l' => if decide (y = x) then Some 0 else Z.succ <$> index x l'
  end.

(** Normalisation of one slice bound, as [PySlice_AdjustIndices] does for
    step 1: a negative bound counts from the end, then the bound is
    clamped to [0 .. len]. *)
Definition adjust (n i : Z) : Z :=
  if i <? 0 then Z.max 0 (i + n) else Z.min i n.

(** [l[start:stop]] *)
Definition slice {A} (l : list A) (start stop : Z) : list A :=
  let s := adjust (len l) start in
  let e := adjust (len l) stop in
  take (Z.to_nat (e - s)) (drop (Z.to_nat s) l).

(** [float(n)] for an [int] [n], as done implicitly by [float * int] and
    [float / int]: rounding to nearest, ties to even.  (CPython raises
    [OverflowError] when |n| exceeds the largest finite double, about
    1.8e308; no counter of this program gets there, and the model gives
    an infinity instead.) *)
Definition float_of_int (n : Z) : float :=
  SF2Prim (binary_normalize prec emax n 0 false).

(** [int(x)] for a [float] [x]: truncation towards zero; [None] stands
    for the [ValueError] of a NaN and the [OverflowError] of an
    infinity. *)
Definition int_of_float (x : float) : option Z :=
  match Prim2SF x with
  | S754_zero _ => Some 0
  | S754_finite sign m e =>
      let magnitude := if 0 <=? e then Z.pos m * 2 ^ e else Z.pos m / 2 ^ (- e) in
      Some (if sign then - magnitude else magnitude)
  | S754_infinity _ | S754_nan => None
  end.

End Py.

(** ** Files, the log and the ways a call can end *)

(** A file that holds one JSON document.  [contents] is the document
    last written ([None]: no file yet); [writable] tells whether
    [open(path, 'w')] succeeds.  A failing [open] (missing directory,
    permissions) leaves the file as it was. *)
Record File (A : Type) := mkFile { contents : option A; writable : bool }.
Arguments mkFile {A}.
Arguments contents {A}.
Arguments writable {A}.

(** [with open(path, 'w') as f: json.dump(doc, f)]; [None] stands for
    the [OSError] of a failing [open]. *)
Definition write_file {A} (doc : A) (f : File A) : option (File A) :=
  if writable f then Some (mkFile (Some doc) true) else None.

Inductive level := DEBUG | INFO | WARNING | ERROR.

(** One record of the module-level [logger]: its level and the fixed
    part of its message. *)
Definition log_record : Type := level * string.

Inductive exn := TypeError | ZeroDivisionError | OSError.

(** How a call on a state of type [S] ends: it returns a value, an
    exception leaves it, or the calling thread blocks for ever inside
    [threading.Lock.acquire].  Each case carries the state at that
    point, which for [blocked] is what every other thread sees from
    then on. *)
Inductive outcome (S A : Type) :=
  | returned (a : A) (s : S)
  | raised (e : exn) (s : S)
  | blocked (s : S).
Arguments returned {S A}.
Arguments raised {S A}.
Arguments blocked {S A}.

Definition final {S A} (o : outcome S A) : S :=
  match o with returned _ s | raised _ s | blocked s => s end.

Definition returns {S A} (o : outcome S A) : bool :=
  match o with returned _ _ => true | _ => false end.

Definition call (S A : Type) : Type := S → outcome S A.

Definition ret {S A} (a : A) : call S A := λ s, returned a s.

Definition bind {S A B} (c : call S A) (k : A → call S B) : call S B :=
  λ s, match c s with
       | returned a s' => k a s'
       | raised e s' => raised e s'
       | blocked s' => blocked s'
       end.

Notation "c '>>' k" := (bind c (λ _, k))
  (at level 100, k at level 200, right associativity).

(** [s.modify(f)]: a statement that updates the state and cannot fail. *)
Definition modify {S} (f : S → S) : call S () := λ s, returned () (f s).

(** ** JSON documents and Python dictionaries *)

Section dict.
Context {A : Type}.

(** A [dict] with [str] keys as the list of its items in insertion
    order. *)
Fixpoint dict_get (key : string) (d : list (string * A)) : option A :=
  match d with
  | [] => None
  | (k, v) :: d' => if decide (k = key) then Some v else dict_get key d'
  end.

(** [d[key] = v]: an existing key keeps its position, a new one goes to
    the end. *)
Fixpoint dict_set (key : string) (v : A) (d : list (string * A)) : list (string * A) :=
  match d with
  | [] => [(key, v)]
  | (k, x) :: d' =>
      if decide (k = key) then (k, v) :: d' else (k, x) :: dict_set key v d'
  end.

End dict.

Inductive json :=
  | JNull
  | JBool (b : bool)
  | JInt (n : Z)
  | JFloat (x : float)
  | JStr (s : string)
  | JList (l : list json)
  | JDict (d : list (string * json)).

(** [bool(v)] *)
Definition truthy (v : json) : bool :=
  match v with
  | JNull => false
  | JBool b => b
  | JInt n => negb (n =? 0)
  | JFloat x => negb (PrimFloat.eqb x 0%float)
  | JStr s => negb (bool_decide (s = ""))
  | JList l => match l with [] => false | _ => true end
  | JDict d => match d with [] => false | _ => true end
  end.

(** [isinstance(v, dict)] *)
Definition is_dict (v : json) : bool :=
  match v with JDict _ => true | _ => false end.

(** A value used where the source's annotations say [int]; [bool] is a
    subclass of [int] in Python. *)
Definition as_int (v : json) : option Z :=
  match v with
  | JInt n => Some n
  | JBool b => Some (if b then 1 else 0)
  | _ => None
  end.

(** ** [CacheConfiguration] *)

Module CacheConfiguration.

Record t := mk {
  config : json;
  config_file : File json;
  log : list log_record
}.

(** [_load_default_config], lines 63-88. *)
Definition _load_default_config : json :=
  JDict [
    ("cache_window", JDict [("Nr", JInt 3); ("Nf", JInt 10)]);
    ("cache_types", JDict [("segments", JBool true); ("plots", JBool true);
                           ("verification", JBool true);
                           ("transient_plots", JBool false)]);
    ("cache_limits", JDict [("max_cache_size_gb", JFloat 5%float);
                            ("max_cache_age_hours", JInt 24);
                            ("cleanup_threshold", JFloat 0.8%float)]);
    ("performance", JDict [("max_workers", JInt 4);
                           ("segment_generation_timeout", JInt 30);
                           ("plot_generation_timeout", JInt 60)]);
    ("auto_cleanup", JBool true);
    ("enable_background_generation", JBool true)
  ].

(** [key_path.split('.')]: never empty. *)
Fixpoint split (key_path : string) : list string :=
  match key_path with
  | EmptyString => [EmptyString]
  | String c rest =>
      if Ascii.eqb c "."%char then EmptyString :: split rest
      else match split rest with
           | k :: keys => String c k :: keys
           | [] => [String c EmptyString]
           end
  end.

(** The loop of [get], lines 122-128, over the keys still to visit. *)
Fixpoint get_keys (keys : list string) (value default : json) : json :=
  match keys with
  | [] => value
  | key :: keys' =>
      match value with
      | JDict d =>
          match dict_get key d with
          | Some v => get_keys keys' v default
          | None => default
          end
      | _ => default
      end
  end.

(** [get], lines 119-128. *)
Definition get (key_path : string) (default : json) (self : t) : json :=
  get_keys (split key_path) (config self) default.

(** [get_cache_window], lines 141-143. *)
Definition get_cache_window (self : t) : json * json :=
  (get "cache_window.Nr" (JInt 3) self, get "cache_window.Nf" (JInt 10) self).

(** The loop and the final assignment of [set], lines 133-138, at the
    mapping [config] with [keys] the components before the last one.
    The result is the tree as the statements leave it, and whether a
    [TypeError] left them.  On a value that is not a [dict]:
    - [key not in config] raises for [None], [bool], [int] and [float];
    - for a [str] or a [list] the test succeeds and the next statement,
      [config[key] = {}] or [config = config[key]], raises;
    - [config[keys[-1]] = value] raises for all of them.
    The tree has no sharing (it comes from a literal and [json.load]), so
    assignment through the alias [config] is an update along the path. *)
Fixpoint set_keys (keys : list string) (last : string) (value : json)
    (config : json) : json * option exn :=
  match config with
  | JDict d =>
      match keys with
      | [] => (JDict (dict_set last value d), None)
      | key :: keys' =>
          let d1 := match dict_get key d with
                    | Some _ => d
                    | None => dict_set key (JDict []) d
                    end in
          match dict_get key d1 with
          | Some child =>
              let (child', r) := set_keys keys' last value child in
              (JDict (dict_set key child' d1), r)
          | None => (JDict d1, Some TypeError)
          end
      end
  | _ => (config, Some TypeError)
  end.

(** All prefixes of a list of keys, the empty one first. *)
Fixpoint prefixes (keys : list string) : list (list string) :=
  [] :: match keys with
        | [] => []
        | key :: keys' => (key ::.) <$> prefixes keys'
        end.

(** No prefix of [keys] leads to a value that is not a mapping: looked up
    with [get] and an empty mapping as default, every prefix (the empty
    one, which is the root, included) gives a mapping. *)
Definition mappings_along (keys : list string) (config : json) : bool :=
  forallb (λ p, is_dict (get_keys p config (JDict []))) (prefixes keys).

(** [save_config], lines 110-117: every exception is caught and logged. *)
Definition save_config (self : t) : t :=
  match write_file (config self) (config_file self) with
  | Some f => mk (config self) f (log self ++ [(INFO, "Saved cache configuration")])
  | None => mk (config self) (config_file self)
               (log self ++ [(ERROR, "Error saving cache config")])
  end.

(** [set], lines 130-139. *)
Definition set (key_path : string) (value : json) : call t () := λ self,
  let keys := split key_path in
  match set_keys (removelast keys) (List.last keys EmptyString) value (config self) with
  | (config', None) =>
      returned () (save_config (mk config' (config_file self) (log self)))
  | (config', Some e) =>
      raised e (mk config' (config_file self) (log self))
  end.

(** [value[key]] when [value] is a mapping that has the key. *)
Definition entry (key : string) (value : json) : option json :=
  match value with
  | JDict d => dict_get key d
  | _ => None
  end.

(** [_deep_merge], lines 102-108, with [override] a mapping: the items
    of [override] are visited in order; where both sides hold a mapping
    under the key the two are merged, everywhere else the value of
    [override] replaces (or adds) the entry.  On an [override] that is
    not a mapping [override.items()] raises; [_load_config] is the only
    caller and tests for it (below). *)
Fixpoint _deep_merge (override : json) (default : list (string * json))
    : list (string * json) :=
  match override with
  | JDict items =>
      (fix merge_items (items default : list (string * json)) :=
         match items with
         | [] => default
         | (key, value) :: rest =>
             merge_items rest
               match dict_get key default, value with
               | Some (JDict sub), JDict _ =>
                   dict_set key (JDict (_deep_merge value sub)) default
               | _, _ => dict_set key value default
               end
         end) items default
  | _ => default
  end.

(** What reading the configuration file gives: there is none; [open] or
    [json.load] raises; or a document is loaded. *)
Inductive stored := NoFile | Unreadable | Document (doc : json).

(** [_load_config], lines 90-100, for a configuration whose root is a
    mapping (it is [_load_default_config()] in the one call). *)
Definition _load_config (file : stored) (self : t) : t :=
  match file with
  | NoFile => self
  | Document (JDict items) =>
      match config self with
      | JDict default =>
          mk (JDict (_deep_merge (JDict items) default)) (config_file self)
             (log self ++ [(INFO, "Loaded cache configuration")])
      | _ => mk (config self) (config_file self)
               (log self ++ [(WARNING, "Error loading cache config")])
      end
  | Unreadable | Document _ =>
      mk (config self) (config_file self)
         (log self ++ [(WARNING, "Error loading cache config")])
  end.

(** [__init__], lines 58-61. *)
Definition init (file : stored) (config_file : File json) : t :=
  _load_config file (mk _load_default_config config_file []).

End CacheConfiguration.

(** ** [CacheStatus]: the status ledger *)

Module CacheStatus.

(** The three kinds of per-type record; the time stamps are the strings
    [datetime.now().isoformat()] produced. *)
Record InProgress := mkInProgress { started : string }.
Record Completed := mkCompleted { completed_at : string; generation_time : float }.
Record Failed := mkFailed { failed_at : string; error : string }.

Record Stats := mkStats {
  total_generated : Z;
  cache_hits : Z;
  cache_misses : Z;
  generation_time_avg : float
}.

(** The dictionary [self.status], lines 151-165. *)
Record Status := mkStatus {
  current_file_id : option Z;
  cache_window : Z * Z;
  generation_queue : list Z;
  completed : gmap Z (gmap string Completed);
  failed : gmap Z (gmap string Failed);
  in_progress : gmap Z (gmap string InProgress);
  stats : Stats;
  last_updated : string
}.

(** A [CacheStatus] object: the dictionary, whether [self.lock] (a
    [threading.Lock], which is not re-entrant) is held, the file
    [cache_status.json], and the records logged by its methods. *)
Record t := mk {
  status : Status;
  lock : bool;
  status_file : File Status;
  log : list log_record
}.

(** [__init__], lines 148-165, without [_load_status]: a new ledger at
    time [now] over the given file.  (What [_load_status] would merge in
    has [str] keys where the methods below use [int] keys, as
    [json.dump] writes them; the theorems quantify over every
    dictionary with [int] keys instead.) *)
Definition init (now : string) (file : File Status) : t :=
  mk (mkStatus None (3, 10) [] ∅ ∅ ∅ (mkStats 0 0 0 0%float) now) false file [].

Definition set_status (f : Status → Status) (self : t) : t :=
  mk (f (status self)) (lock self) (status_file self) (log self).
Definition set_lock (b : bool) (self : t) : t :=
  mk (status self) b (status_file self) (log self).
Definition set_status_file (f : File Status) (self : t) : t :=
  mk (status self) (lock self) f (log self).
Definition add_log (r : log_record) (self : t) : t :=
  mk (status self) (lock self) (status_file self) (log self ++ [r]).

Definition set_current_file_id (v : option Z) (st : Status) : Status :=
  mkStatus v (cache_window st) (generation_queue st) (completed st) (failed st)
    (in_progress st) (stats st) (last_updated st).
Definition set_generation_queue (q : list Z) (st : Status) : Status :=
  mkStatus (current_file_id st) (cache_window st) q (completed st) (failed st)
    (in_progress st) (stats st) (last_updated st).
Definition set_completed (m : gmap Z (gmap string Completed)) (st : Status) : Status :=
  mkStatus (current_file_id st) (cache_window st) (generation_queue st) m (failed st)
    (in_progress st) (stats st) (last_updated st).
Definition set_failed (m : gmap Z (gmap string Failed)) (st : Status) : Status :=
  mkStatus (current_file_id st) (cache_window st) (generation_queue st) (completed st) m
    (in_progress st) (stats st) (last_updated st).
Definition set_in_progress (m : gmap Z (gmap string InProgress)) (st : Status) : Status :=
  mkStatus (current_file_id st) (cache_window st) (generation_queue st) (completed st)
    (failed st) m (stats st) (last_updated st).
Definition set_stats (x : Stats) (st : Status) : Status :=
  mkStatus (current_file_id st) (cache_window st) (generation_queue st) (completed st)
    (failed st) (in_progress st) x (last_updated st).
Definition set_last_updated (now : string) (st : Status) : Status :=
  mkStatus (current_file_id st) (cache_window st) (generation_queue st) (completed st)
    (failed st) (in_progress st) (stats st) now.

(** [self.lock.acquire()]: on a lock that is held the caller waits, and
    nothing in this program releases a lock on behalf of another
    thread. *)
Definition acquire : call t () := λ self,
  if lock self then blocked self else returned () (set_lock true self).

Definition release (self : t) : t := set_lock false self.

(** [with self.lock: body]: the lock is released when the body returns
    and when an exception leaves it. *)
Definition with_lock {A} (body : call t A) : call t A := λ self,
  match acquire self with
  | returned _ s1 =>
      match body s1 with
      | returned a s2 => returned a (release s2)
      | raised e s2 => raised e (release s2)
      | blocked s2 => blocked s2
      end
  | raised e s1 => raised e s1
  | blocked s1 => blocked s1
  end.

(** [save_status], lines 177-185.  The [try] encloses the [with]; an
    exception of the write is caught and logged. *)
Definition save_status (now : string) : call t () := λ self,
  match with_lock (λ s,
          let s1 := set_status (set_last_updated now) s in
          match write_file (status s1) (status_file s1) with
          | Some f => returned () (set_status_file f s1)
          | None => raised OSError s1
          end) self with
  | raised _ s' => returned () (add_log (ERROR, "Error saving cache status") s')
  | o => o
  end.

(** [update_current_file], lines 187-191. *)
Definition update_current_file (now : string) (file_id : Z) : call t () :=
  with_lock (
    modify (set_status (set_current_file_id (Some file_id))) >>
    save_status now).

(** The statements of [add_to_queue] between taking the lock and
    [save_status], lines 196-198. *)
Definition extend_queue (file_ids : list Z) (st : Status) : Status :=
  let current_queue : gset Z := list_to_set (generation_queue st) in
  let new_files := filter (λ fid, fid ∉ current_queue) file_ids in
  set_generation_queue (generation_queue st ++ new_files) st.

(** [add_to_queue], lines 193-199. *)
Definition add_to_queue (now : string) (file_ids : list Z) : call t () :=
  with_lock (
    modify (set_status (extend_queue file_ids)) >>
    save_status now).

(** [d[file_id][cache_type] = record], after [if file_id not in d:
    d[file_id] = {}]; lines 204-206, 221-223 and 246-248. *)
Definition put {R} (file_id : Z) (cache_type : string) (record : R)
    (d : gmap Z (gmap string R)) : gmap Z (gmap string R) :=
  let d1 := match d !! file_id with
            | Some _ => d
            | None => <[file_id := ∅]> d
            end in
  alter (λ types, <[cache_type := record]> types) file_id d1.

(** "Remove from in_progress", lines 215-218 and 240-243. *)
Definition remove_in_progress (file_id : Z) (cache_type : string)
    (d : gmap Z (gmap string InProgress)) : gmap Z (gmap string InProgress) :=
  match d !! file_id with
  | Some types =>
      let types' := delete cache_type types in
      if decide (types' = ∅) then delete file_id d else <[file_id := types']> d
  | None => d
  end.

(** [mark_in_progress], lines 201-209. *)
Definition mark_in_progress (now : string) (file_id : Z) (cache_type : string)
    : call t () :=
  with_lock (
    modify (set_status (λ st,
      set_in_progress (put file_id cache_type (mkInProgress now) (in_progress st)) st)) >>
    save_status now).

(** "Update stats", lines 229-232.  [float / int] raises
    [ZeroDivisionError] for a zero divisor; the counter has been
    incremented by then. *)
Definition update_stats (generation_time : float) : call t () := λ self,
  let st := status self in
  let stats1 := mkStats (total_generated (stats st) + 1) (cache_hits (stats st))
                  (cache_misses (stats st)) (generation_time_avg (stats st)) in
  let self1 := set_status (set_stats stats1) self in
  let current_avg := generation_time_avg stats1 in
  let total := total_generated stats1 in
  if total =? 0 then raised ZeroDivisionError self1
  else
    let avg := ((current_avg * Py.float_of_int (total - 1) + generation_time)
                / Py.float_of_int total)%float in
    returned () (set_status (set_stats
      (mkStats total (cache_hits stats1) (cache_misses stats1) avg)) self1).

(** [mark_completed], lines 211-234. *)
Definition mark_completed (now : string) (file_id : Z) (cache_type : string)
    (generation_time : float) : call t () :=
  with_lock (
    modify (set_status (λ st,
      set_in_progress (remove_in_progress file_id cache_type (in_progress st)) st)) >>
    modify (set_status (λ st,
      set_completed (put file_id cache_type (mkCompleted now generation_time)
                       (completed st)) st)) >>
    update_stats generation_time >>
    save_status now).

(** The dictionary [mark_completed] leaves when the division succeeds. *)
Definition completed_status (now : string) (file_id : Z) (cache_type : string)
    (generation_time : float) (st : Status) : Status :=
  let total := total_generated (stats st) + 1 in
  let avg := ((generation_time_avg (stats st) * Py.float_of_int (total - 1)
               + generation_time) / Py.float_of_int total)%float in
  set_stats (mkStats total (cache_hits (stats st)) (cache_misses (stats st)) avg)
    (set_completed (put file_id cache_type (mkCompleted now generation_time) (completed st))
       (set_in_progress (remove_in_progress file_id cache_type (in_progress st)) st)).


(** [mark_failed], lines 236-252. *)
Definition mark_failed (now : string) (file_id : Z) (cache_type : string)
    (error : string) : call t () :=
  with_lock (
    modify (set_status (λ st,
      set_in_progress (remove_in_progress file_id cache_type (in_progress st)) st)) >>
    modify (set_status (λ st,
      set_failed (put file_id cache_type (mkFailed now error) (failed st)) st)) >>
    save_status now).

(** [(file_id, cache_type)] has a record in a two-level map. *)
Definition holds {R} (d : gmap Z (gmap string R)) (file_id : Z)
    (cache_type : string) : bool :=
  match d !! file_id with
  | Some types => bool_decide (is_Some (types !! cache_type))
  | None => false
  end.

(** [is_cached], lines 254-257; it does not take the lock. *)
Definition is_cached (file_id : Z) (cache_type : string) (self : t) : bool :=
  holds (completed (status self)) file_id cache_type.

(** [get_queue_status], lines 259-267. *)
Definition get_queue_status : call t (nat * nat * nat * nat) :=
  with_lock (λ self,
    let st := status self in
    returned (length (generation_queue st), size (in_progress st),
              size (completed st), size (failed st)) self).

(** The five mutating methods, each with its arguments. *)
Definition mutating_calls (now : string) (file_id : Z) (file_ids : list Z)
    (cache_type error : string) (generation_time : float) : list (call t ()) :=
  [ update_current_file now file_id;
    add_to_queue now file_ids;
    mark_in_progress now file_id cache_type;
    mark_completed now file_id cache_type generation_time;
    mark_failed now file_id cache_type error ].

(** No file id maps to an empty dictionary of types. *)
Definition no_empty_entry {R} (d : gmap Z (gmap string R)) : Prop :=
  ∀ file_id types, d !! file_id = Some types → types ≠ ∅.

End CacheStatus.

(** ** [FileSequenceManager] *)

Module FileSequenceManager.

(** [get_cache_targets], manager.py lines 288-307.  [file_sequence] is
    what [self.get_file_sequence()] returned for this call (the rows of
    [SELECT file_id FROM files ORDER BY file_id], or [[]] when the
    query failed). *)
Definition get_cache_targets (file_sequence : list Z)
    (current_file_id Nr Nf : Z) : list Z :=
  if bool_decide (current_file_id ∈ file_sequence) then
    match Py.index current_file_id file_sequence with
    | Some current_index =>
        let start_index := Z.max 0 (current_index - Nr) in
        let end_index := Z.min (Py.len file_sequence) (current_index + Nf + 1) in
        Py.slice file_sequence start_index end_index
    | None => []
    end
  else [].

(** [get_next_file], lines 309-316. *)
Definition get_next_file (file_sequence : list Z) (current_file_id : Z) : option Z :=
  if bool_decide (current_file_id ∈ file_sequence) then
    match Py.index current_file_id file_sequence with
    | Some current_index =>
        if current_index + 1 <? Py.len file_sequence
        then file_sequence !! Z.to_nat (current_index + 1)
        else None
    | None => None
    end
  else None.

(** [get_previous_file], lines 318-325. *)
Definition get_previous_file (file_sequence : list Z) (current_file_id : Z) : option Z :=
  if bool_decide (current_file_id ∈ file_sequence) then
    match Py.index current_file_id file_sequence with
    | Some current_index =>
        if 0 <? current_index
        then file_sequence !! Z.to_nat (current_index - 1)
        else None
    | None => None
    end
  else None.

(** The window the specification describes: the items at positions
    [lo], [lo+1], ..., [hi-1] of [seq], in order. *)
Definition window {A} (seq : list A) (lo hi : nat) : list A :=
  take (hi - lo) (drop lo seq).

End FileSequenceManager.

(** ** [CacheManager]: the orchestrator *)

Module CacheManager.

(** An entry of a cache directory, as the calls of [os] and [json] see
    it: [is_file] is [os.path.isfile]; [mtime] is
    [datetime.fromtimestamp(os.path.getmtime(path))] in microseconds;
    [readable] tells whether [open(path, 'r')] succeeds; [parsed] is
    what [json.load] returns, [None] when it raises; [removable] tells
    whether [os.remove(path)] succeeds. *)
Record node := mkNode {
  is_file : bool;
  mtime : Z;
  readable : bool;
  parsed : option json;
  removable : bool
}.

Record t := mk {
  config : CacheConfiguration.t;
  status : CacheStatus.t;
  submitted : list Z;
  segments_dir : gmap string node;
  plots_dir : gmap string node;
  verification_dir : gmap string node;
  log : list log_record
}.

Definition set_status (f : CacheStatus.t → CacheStatus.t) (self : t) : t :=
  mk (config self) (f (status self)) (submitted self) (segments_dir self)
     (plots_dir self) (verification_dir self) (log self).
Definition set_submitted (l : list Z) (self : t) : t :=
  mk (config self) (status self) l (segments_dir self)
     (plots_dir self) (verification_dir self) (log self).
Definition set_dirs (sd pd vd : gmap string node) (self : t) : t :=
  mk (config self) (status self) (submitted self) sd pd vd (log self).
Definition add_log (rs : list log_record) (self : t) : t :=
  mk (config self) (status self) (submitted self) (segments_dir self)
     (plots_dir self) (verification_dir self) (log self ++ rs).

(** [__init__], lines 330-338, with the default configuration, a new
    ledger, nothing on disk and empty cache directories. *)
Definition init (now : string) : t :=
  mk (CacheConfiguration.mk CacheConfiguration._load_default_config
        (mkFile None true) [])
     (CacheStatus.init now (mkFile None true)) [] ∅ ∅ ∅
     [(INFO, "Cache Manager initialized"%string)].

(** A method of [self.status] called from a method of the manager. *)
Definition on_status {A} (c : call CacheStatus.t A) : call t A := λ self,
  match c (status self) with
  | returned a s => returned a (set_status (λ _, s) self)
  | raised e s => raised e (set_status (λ _, s) self)
  | blocked s => blocked (set_status (λ _, s) self)
  end.

(** [f"{n:08d}"]: decimal digits, zero-padded to eight characters, the
    sign included in the width. *)
Definition format_08d (n : Z) : string :=
  let digits := DecimalString.NilZero.string_of_uint (N.to_uint (Z.abs_N n)) in
  let sign := if n <? 0 then "-"%string else EmptyString in
  let zeros :=
    replicate (8 - String.length sign - String.length digits)%nat "0"%char in
  String.append sign (String.append (String.string_of_list_ascii zeros) digits).

Definition segments_file (file_id : Z) : string :=
  String.append "segments_" (String.append (format_08d file_id) ".json").
Definition plots_meta_file (file_id : Z) : string :=
  String.append "plots_meta_" (String.append (format_08d file_id) ".json").

(** The two counters of the point lookups. *)
Definition hits (self : t) : Z :=
  CacheStatus.cache_hits (CacheStatus.stats (CacheStatus.status (status self))).
Definition misses (self : t) : Z :=
  CacheStatus.cache_misses (CacheStatus.stats (CacheStatus.status (status self))).

(** [self.status.status["stats"]["cache_hits"] += 1], without the lock. *)
Definition count_hit (self : t) : t :=
  set_status (CacheStatus.set_status (λ st,
    let x := CacheStatus.stats st in
    CacheStatus.set_stats
      (CacheStatus.mkStats (CacheStatus.total_generated x)
         (CacheStatus.cache_hits x + 1) (CacheStatus.cache_misses x)
         (CacheStatus.generation_time_avg x)) st)) self.

(** [self.status.status["stats"]["cache_misses"] += 1] *)
Definition count_miss (self : t) : t :=
  set_status (CacheStatus.set_status (λ st,
    let x := CacheStatus.stats st in
    CacheStatus.set_stats
      (CacheStatus.mkStats (CacheStatus.total_generated x)
         (CacheStatus.cache_hits x) (CacheStatus.cache_misses x + 1)
         (CacheStatus.generation_time_avg x)) st)) self.

(** [get_cached_segments], lines 500-512.  The result is the loaded
    document, [JNull] being Python's [None].  The hit is counted once
    [open] has succeeded and before [json.load] runs; an exception of
    either is caught, logged, and control falls through to the miss. *)
Definition get_cached_segments (file_id : Z) : call t json := λ self,
  let miss s := returned JNull (count_miss s) in
  match segments_dir self !! segments_file file_id with
  | Some nd =>
      if is_file nd && readable nd then
        let self1 := count_hit self in
        match parsed nd with
        | Some payload => returned payload self1
        | None => miss (add_log [(ERROR, "Error loading cached segments")] self1)
        end
      else miss (add_log [(ERROR, "Error loading cached segments")] self)
  | None => miss self
  end.

(** [get_cached_plots], lines 514-523: no counter is touched. *)
Definition get_cached_plots (file_id : Z) : call t json := λ self,
  match plots_dir self !! plots_meta_file file_id with
  | Some nd =>
      if is_file nd && readable nd then
        match parsed nd with
        | Some payload => returned payload self
        | None => returned JNull (add_log [(ERROR, "Error loading cached plots")] self)
        end
      else returned JNull (add_log [(ERROR, "Error loading cached plots")] self)
  | None => returned JNull self
  end.

(** The test of lines 370-374 for one target: some enabled type has no
    completed record. *)
Definition needs_generation (self : t) (file_id : Z) : bool :=
  existsb (λ cache_type,
      truthy (CacheConfiguration.get (String.append "cache_types." cache_type)
                (JBool true) (config self))
      && negb (CacheStatus.is_cached file_id cache_type (status self)))
    ["segments"; "plots"; "verification"]%string.

(** Lines 367-377: the targets that need caching. *)
Definition targets_to_generate (self : t) (cache_targets : list Z) : list Z :=
  filter (λ file_id, needs_generation self file_id = true) cache_targets.

(** [self.file_manager.get_cache_targets(current_file_id, Nr, Nf)] with
    the two values read from the configuration.  They are [int] by the
    annotation of [get_cache_window]; on any other value the arithmetic
    or the slice raises [TypeError] (a [float] that the clamping happens
    to discard is the one case Python lets through; it is not
    modelled). *)
Definition cache_targets (file_sequence : list Z) (current_file_id : Z)
    (self : t) : option (list Z) :=
  let '(Nr, Nf) := CacheConfiguration.get_cache_window (config self) in
  if bool_decide (current_file_id ∈ file_sequence) then
    match as_int Nr, as_int Nf with
    | Some nr, Some nf =>
        Some (FileSequenceManager.get_cache_targets file_sequence current_file_id nr nf)
    | _, _ => None
    end
  else Some [].

(** [_trigger_background_generation], lines 361-385.  [submitted]
    collects the arguments of [self.executor.submit]. *)
Definition _trigger_background_generation (now : string)
    (file_sequence : list Z) (current_file_id : Z) : call t () := λ self,
  match cache_targets file_sequence current_file_id self with
  | None => raised TypeError self
  | Some targets =>
      let todo := targets_to_generate self targets in
      match todo with
      | [] => returned () self
      | _ :: _ =>
          (modify (add_log [(INFO, "Queuing files for background generation")]) >>
           on_status (CacheStatus.add_to_queue now todo) >>
           modify (λ s, set_submitted (submitted s ++ todo) s)) self
      end
  end.

(** [update_current_file], lines 352-359. *)
Definition update_current_file (now : string) (file_sequence : list Z)
    (file_id : Z) : call t () :=
  on_status (CacheStatus.update_current_file now file_id) >>
  (λ self,
     if truthy (CacheConfiguration.get "enable_background_generation"
                  (JBool true) (config self))
     then _trigger_background_generation now file_sequence file_id self
     else returned () self).

(** [str(e)] for the exceptions of this model that reach a handler
    which records the text. *)
Definition exn_message (e : exn) : string :=
  match e with
  | ZeroDivisionError => "float division by zero"
  | TypeError => "TypeError"
  | OSError => "OSError"
  end.

(** [_generate_verification_cache], lines 481-498; [start_time] and
    [end_time] are the two readings of [time.time()]. *)
Definition _generate_verification_cache (now : string)
    (start_time end_time : float) (file_id : Z) : call t () := λ self,
  match (on_status (CacheStatus.mark_in_progress now file_id "verification") >>
         on_status (CacheStatus.mark_completed now file_id "verification"
                      (end_time - start_time)%float) >>
         modify (add_log [(INFO, "Generated verification cache"%string)])) self with
  | raised e s =>
      (on_status (CacheStatus.mark_failed now file_id "verification" (exn_message e)) >>
       modify (add_log [(ERROR, "Failed to generate verification cache"%string)])) s
  | o => o
  end.

(** The value of [get_status_summary]: the configuration, the status
    dictionary, the queue status and the number of entries of the three
    cache directories. *)
Record summary := mkSummary {
  summary_config : json;
  summary_status : CacheStatus.Status;
  summary_queue_status : nat * nat * nat * nat;
  summary_cache_dirs : nat * nat * nat
}.

(** [get_status_summary], lines 546-557. *)
Definition get_status_summary : call t summary :=
  bind (on_status CacheStatus.get_queue_status) (λ queue_status self,
    returned
      (mkSummary (CacheConfiguration.config (config self))
         (CacheStatus.status (status self)) queue_status
         (size (segments_dir self), size (plots_dir self),
          size (verification_dir self)))
      self).

Section cleanup.

(** [timedelta(hours=x)] in microseconds for a [float] [x]; [None] when
    it raises (a NaN or an infinity).  The rounding CPython does there is
    left open. *)
Variable timedelta_float_hours : float → option Z.






End cleanup.

End CacheManager.

(** ** The route [/api/config/update] of the configuration server *)

Module ConfigServer.

(** The loop of lines 58-59 over the items of the request body. *)
Fixpoint set_all (items : list (string * json)) : call CacheConfiguration.t () :=
  match items with
  | [] => ret ()
  | (key_path, value) :: rest =>
      CacheConfiguration.set key_path value >> set_all rest
  end.

(** [update_config], lines 50-71: the ['success'] field of the response
    and the configuration afterwards.  A body that is not an object has
    no [items()], and that exception too ends in the handler. *)
Definition update_config (data : json) (cfg : CacheConfiguration.t)
    : bool * CacheConfiguration.t :=
  match data with
  | JDict items =>
      match set_all items cfg with
      | returned _ cfg' => (true, cfg')
      | raised _ cfg' | blocked cfg' => (false, cfg')
      end
  | _ => (false, cfg)
  end.

Section cache_window.

(** [int(s)] for a [str] [s]; [None] when it raises [ValueError].  The
    grammar Python accepts (blanks, sign, underscores, Unicode digits)
    is left open. *)
Variable int_of_str : string → option Z.

(** [int(v)] for a value of the request body; [None] when it raises. *)
Definition to_int (v : json) : option Z :=
  match v with
  | JInt n => Some n
  | JBool b => Some (if b then 1 else 0)
  | JFloat x => Py.int_of_float x
  | JStr s => int_of_str s
  | JNull | JList _ | JDict _ => None
  end.

(** [update_cache_window], lines 73-101: the ['success'] field of the
    response and the configuration afterwards.  Both conversions are
    done before the first range test; every exception ends in the
    handler. *)
Definition update_cache_window (data : json) (cfg : CacheConfiguration.t)
    : bool * CacheConfiguration.t :=
  match data with
  | JDict d =>
      match to_int (default (JInt 3) (dict_get "Nr" d)),
            to_int (default (JInt 10) (dict_get "Nf" d)) with
      | Some Nr, Some Nf =>
          if (Nr <? 0) || (50 <? Nr) then (false, cfg)
          else if (Nf <? 0) || (100 <? Nf) then (false, cfg)
          else
            match (CacheConfiguration.set "cache_window.Nr" (JInt Nr) >>
                   CacheConfiguration.set "cache_window.Nf" (JInt Nf)) cfg with
            | returned _ cfg' => (true, cfg')
            | raised _ cfg' | blocked cfg' => (false, cfg')
            end
      | _, _ => (false, cfg)
      end
  | _ => (false, cfg)
  end.

End cache_window.

End ConfigServer.

(** ** Facts about the built-ins *)

Section py_facts.

Lemma index_range x l i : Py.index x l = Some i → 0 ≤ i < Py.len l.
Proof.
  unfold Py.len. revert i. induction l as [|y l IH]; intros i; simpl; [done|].
  case_decide.
  - intros [= <-]. lia.
  - destruct (Py.index x l) as [j|]; simpl; [|done].
    intros [= <-]. specialize (IH j eq_refl). lia.
Qed.

Lemma index_lookup x l i : Py.index x l = Some i → l !! Z.to_nat i = Some x.
Proof.
  revert i. induction l as [|y l IH]; intros i; simpl; [done|].
  case_decide as Hy.
  - intros [= <-]. by subst.
  - destruct (Py.index x l) as [j|] eqn:Hj; simpl; [|done].
    intros [= <-]. pose proof (index_range _ _ _ Hj).
    replace (Z.to_nat (Z.succ j)) with (S (Z.to_nat j)) by lia.
    simpl. by apply IH.
Qed.

Lemma index_first x l i j :
  Py.index x l = Some i → (j < Z.to_nat i)%nat → l !! j ≠ Some x.
Proof.
  revert i j. induction l as [|y l IH]; intros i j; simpl; [done|].
  case_decide as Hy.
  - intros [= <-]. simpl. lia.
  - destruct (Py.index x l) as [k|] eqn:Hk; simpl; [|done].
    intros [= <-] Hj. pose proof (index_range _ _ _ Hk).
    destruct j as [|j]; simpl; [congruence|].
    apply (IH k); [done|lia].
Qed.

Lemma index_elem_of x l : x ∈ l → is_Some (Py.index x l).
Proof.
  induction 1 as [y l|y z l _ IH]; simpl.
  - rewrite decide_True by done. eauto.
  - case_decide; [eauto|]. destruct IH as [j ->]. simpl. eauto.
Qed.

Lemma slice_window {A} (l : list A) (lo hi : Z) :
  0 ≤ lo → 0 ≤ hi ≤ Py.len l →
  Py.slice l lo hi = FileSequenceManager.window l (Z.to_nat lo) (Z.to_nat hi).
Proof.
  intros Hlo Hhi. unfold Py.slice, Py.adjust, FileSequenceManager.window.
  destruct (Z.ltb_spec lo 0); [lia|]. destruct (Z.ltb_spec hi 0); [lia|].
  rewrite (Z.min_l hi) by lia.
  destruct (Z.le_gt_cases lo (Py.len l)) as [Hle|Hgt].
  - rewrite Z.min_l by lia. f_equal. lia.
  - rewrite Z.min_r by lia. unfold Py.len in *.
    rewrite !drop_ge by lia. by rewrite !take_nil.
Qed.

End py_facts.

(** ** Window computation *)

Section window.

Import FileSequenceManager.

(** C3.  When [current_file_id] occurs in the sequence and [i] is its
    index (what [list.index] returns), and [Nr], [Nf] are non-negative,
    [get_cache_targets] returns exactly the items at positions
    [max(0, i-Nr)] up to, not including, [min(len(seq), i+Nf+1)]: a
    contiguous run of the sequence that holds the current item, is
    clamped to the ends of the sequence and never wraps around. *)
Theorem get_cache_targets_window (seq : list Z) (cur i Nr Nf : Z) :
  Py.index cur seq = Some i → 0 ≤ Nr → 0 ≤ Nf →
  let lo := Z.to_nat (Z.max 0 (i - Nr)) in
  let hi := Z.to_nat (Z.min (Py.len seq) (i + Nf + 1)) in
  get_cache_targets seq cur Nr Nf = window seq lo hi
  ∧ (lo ≤ Z.to_nat i < hi)%nat ∧ (hi ≤ length seq)%nat
  ∧ length (get_cache_targets seq cur Nr Nf) = (hi - lo)%nat
  ∧ (∀ k, (k < hi - lo)%nat →
       get_cache_targets seq cur Nr Nf !! k = seq !! (lo + k)%nat)
  ∧ get_cache_targets seq cur Nr Nf !! (Z.to_nat i - lo)%nat = Some cur.
Proof.
  intros Hi HNr HNf lo hi.
  pose proof (index_range _ _ _ Hi) as Hr.
  pose proof (index_lookup _ _ _ Hi) as Hl.
  assert (Hin : cur ∈ seq) by (eapply list_elem_of_lookup_2; exact Hl).
  assert (Heq : get_cache_targets seq cur Nr Nf = window seq lo hi).
  { unfold get_cache_targets. rewrite bool_decide_eq_true_2 by done.
    rewrite Hi. cbv zeta. apply slice_window; lia. }
  assert (Hb : (lo ≤ Z.to_nat i < hi)%nat ∧ (hi ≤ length seq)%nat).
  { unfold Py.len in *. subst lo hi. lia. }
  assert (Hk : ∀ k, (k < hi - lo)%nat → window seq lo hi !! k = seq !! (lo + k)%nat).
  { intros k Hlt. unfold window. rewrite lookup_take_lt by done. apply lookup_drop. }
  rewrite Heq. repeat split; try lia.
  - unfold window. rewrite length_take, length_drop. lia.
  - exact Hk.
  - rewrite Hk by lia. rewrite <- Hl. f_equal. lia.
Qed.

(** The worked example of the specification: thirty items 101..130,
    [Nr = 3], [Nf = 10], current item 110 at index 9. *)
Lemma get_cache_targets_window_witness :
  Py.index 110 (Z.of_nat <$> seq 101 30) = Some 9
  ∧ get_cache_targets (Z.of_nat <$> seq 101 30) 110 3 10 = Z.of_nat <$> seq 107 14
  ∧ length (get_cache_targets (Z.of_nat <$> seq 101 30) 110 3 10) = 14%nat.
Proof.
  split; [reflexivity|].
  destruct (get_cache_targets_window (Z.of_nat <$> seq 101 30) 110 9 3 10)
    as (Heq & _ & _ & Hlen & _); [reflexivity|lia|lia|].
  split; [rewrite Heq; reflexivity|rewrite Hlen; reflexivity].
Defined.

End window.

(** ** The lock of the ledger *)

Section ledger_lock.

Import CacheStatus.

Lemma with_lock_held {A} (body : call t A) self :
  lock self = true → with_lock body self = blocked self.
Proof. intros H. unfold with_lock, acquire. by rewrite H. Qed.

Lemma save_status_held now self :
  lock self = true → save_status now self = blocked self.
Proof. intros H. unfold save_status. by rewrite with_lock_held. Qed.

(** A method of the shape [with self.lock: <updates>; self.save_status()]
    called while the lock is free: the updates are made, and the nested
    [acquire] of [save_status] blocks with the lock still held. *)
Lemma with_lock_save_status now (f : t → t) self :
  lock self = false → lock (f (set_lock true self)) = true →
  with_lock (modify f >> save_status now) self = blocked (f (set_lock true self)).
Proof.
  intros Hfree Hheld. unfold with_lock, acquire. rewrite Hfree.
  unfold bind, modify. by rewrite save_status_held.
Qed.

(** [save_status] on its own, with the lock free. *)
Lemma save_status_free now self :
  lock self = false →
  save_status now self =
    let s1 := set_status (set_last_updated now) self in
    match write_file (status s1) (status_file s1) with
    | Some f => returned () (set_status_file f s1)
    | None => returned () (add_log (ERROR, "Error saving cache status"%string) s1)
    end.
Proof.
  intros Hfree. unfold save_status, with_lock, acquire. rewrite Hfree.
  destruct self as [st lk f lg]; cbn in *. subst lk.
  by destruct (write_file _ _).
Qed.

Lemma update_current_file_free now file_id self :
  lock self = false →
  update_current_file now file_id self =
    blocked (set_lock true (set_status (set_current_file_id (Some file_id)) self)).
Proof. intros H. unfold update_current_file. by rewrite with_lock_save_status. Qed.

Lemma add_to_queue_free now file_ids self :
  lock self = false →
  add_to_queue now file_ids self =
    blocked (set_lock true (set_status (extend_queue file_ids) self)).
Proof. intros H. unfold add_to_queue. by rewrite with_lock_save_status. Qed.

Lemma mark_in_progress_free now file_id cache_type self :
  lock self = false →
  mark_in_progress now file_id cache_type self =
    blocked (set_lock true (set_status (λ st,
      set_in_progress (put file_id cache_type (mkInProgress now) (in_progress st)) st)
      self)).
Proof. intros H. unfold mark_in_progress. by rewrite with_lock_save_status. Qed.

Lemma mark_failed_free now file_id cache_type error self :
  lock self = false →
  mark_failed now file_id cache_type error self =
    blocked (set_lock true (set_status (λ st,
      set_failed (put file_id cache_type (mkFailed now error) (failed st))
        (set_in_progress (remove_in_progress file_id cache_type (in_progress st)) st))
      self)).
Proof.
  intros H. unfold mark_failed, with_lock, acquire. rewrite H.
  unfold bind, modify. by rewrite save_status_held.
Qed.

Lemma mark_completed_free now file_id cache_type generation_time self :
  lock self = false → total_generated (stats (status self)) + 1 ≠ 0 →
  mark_completed now file_id cache_type generation_time self =
    blocked (set_lock true
      (set_status (completed_status now file_id cache_type generation_time) self)).
Proof.
  intros H Hn. unfold mark_completed, with_lock, acquire. rewrite H.
  unfold bind, modify, update_stats. cbn.
  destruct (Z.eqb_spec (total_generated (stats (status self)) + 1) 0); [done|].
  by rewrite save_status_held.
Qed.

Lemma mark_completed_returns now file_id cache_type generation_time self :
  returns (mark_completed now file_id cache_type generation_time self) = false
  ∧ status_file (final (mark_completed now file_id cache_type generation_time self))
    = status_file self.
Proof.
  destruct (lock self) eqn:H.
  { unfold mark_completed. by rewrite with_lock_held. }
  unfold mark_completed, with_lock, acquire. rewrite H.
  unfold bind, modify, update_stats. cbn.
  destruct (Z.eqb_spec (total_generated (stats (status self)) + 1) 0); [done|].
  by rewrite save_status_held.
Qed.

End ledger_lock.

(** ** The three maps of the ledger *)

Section ledger_maps.

Import CacheStatus.

Context {R : Type}.
Implicit Types (d : gmap Z (gmap string R)) (file_id : Z) (cache_type : string).

Lemma put_lookup_eq file_id cache_type (r : R) d :
  put file_id cache_type r d !! file_id
  = Some (<[cache_type := r]> (default ∅ (d !! file_id))).
Proof.
  unfold put. destruct (d !! file_id) eqn:E.
  - rewrite lookup_alter, decide_True by done. by rewrite E.
  - rewrite lookup_alter, decide_True by done. by rewrite lookup_insert_eq.
Qed.

Lemma put_lookup_ne file_id file_id' cache_type (r : R) d :
  file_id ≠ file_id' → put file_id cache_type r d !! file_id' = d !! file_id'.
Proof.
  intros Hne. unfold put. rewrite lookup_alter, decide_False by done.
  destruct (d !! file_id); [done|]. by rewrite lookup_insert_ne.
Qed.

Lemma holds_put_eq file_id cache_type (r : R) d :
  holds (put file_id cache_type r d) file_id cache_type = true.
Proof.
  unfold holds. rewrite put_lookup_eq, lookup_insert_eq.
  by apply bool_decide_eq_true_2.
Qed.

Lemma holds_put_ne file_id cache_type file_id' cache_type' (r : R) d :
  (file_id', cache_type') ≠ (file_id, cache_type) →
  holds (put file_id cache_type r d) file_id' cache_type' = holds d file_id' cache_type'.
Proof.
  intros Hne. unfold holds. destruct (decide (file_id = file_id')) as [<-|Hid].
  - rewrite put_lookup_eq.
    assert (cache_type ≠ cache_type') by congruence.
    rewrite lookup_insert_ne by done.
    destruct (d !! file_id); cbn; [done|].
    rewrite lookup_empty. by apply bool_decide_eq_false_2, is_Some_None.
  - by rewrite put_lookup_ne.
Qed.

End ledger_maps.

Section ledger_in_progress.

Import CacheStatus.

Implicit Types (d : gmap Z (gmap string InProgress)).



(** The dictionary a completion leaves, whether or not the division of
    the statistics raised. *)
Lemma mark_completed_maps now file_id cache_type generation_time self :
  lock self = false →
  let st := status (final (mark_completed now file_id cache_type generation_time self)) in
  in_progress st = remove_in_progress file_id cache_type (in_progress (status self))
  ∧ completed st = put file_id cache_type (mkCompleted now generation_time)
                     (completed (status self))
  ∧ failed st = failed (status self).
Proof.
  intros H. unfold mark_completed, with_lock, acquire. rewrite H.
  unfold bind, modify, update_stats. cbn.
  destruct (Z.eqb_spec (total_generated (stats (status self)) + 1) 0); [done|].
  by rewrite save_status_held.
Qed.

End ledger_in_progress.

(** ** Termination and persistence of the mutating operations *)

Section ledger_calls.

Import CacheStatus.

(** C1 (the code does not do this).  On every ledger, whatever the state
    of the lock, none of the five mutating operations returns, and none
    changes the status file: a call made with the lock free takes it,
    updates the dictionary and then blocks in the nested [acquire] of
    [save_status], with the lock held for good; a call made with the
    lock held waits at its own [acquire].  On a new ledger
    [update_current_file] ends blocked, the identifier recorded in
    memory only. *)
Theorem mutating_operations_never_return (now : string) (self : t)
    (file_id : Z) (file_ids : list Z) (cache_type error : string)
    (generation_time : float) (file : File Status) :
  let ops := [ update_current_file now file_id;
               add_to_queue now file_ids;
               mark_in_progress now file_id cache_type;
               mark_completed now file_id cache_type generation_time;
               mark_failed now file_id cache_type error ] in
  Forall (λ op : call t (), returns (op self) = false
                            ∧ status_file (final (op self)) = status_file self) ops
  ∧ update_current_file now file_id (init now file)
    = blocked (set_lock true
        (set_status (set_current_file_id (Some file_id)) (init now file))).
Proof.
  cbv zeta. split; [|by apply update_current_file_free].
  repeat first [apply Forall_nil_2 | apply Forall_cons_2].
  - destruct (lock self) eqn:H.
    + unfold update_current_file. by rewrite with_lock_held.
    + by rewrite update_current_file_free.
  - destruct (lock self) eqn:H.
    + unfold add_to_queue. by rewrite with_lock_held.
    + by rewrite add_to_queue_free.
  - destruct (lock self) eqn:H.
    + unfold mark_in_progress. by rewrite with_lock_held.
    + by rewrite mark_in_progress_free.
  - apply mark_completed_returns.
  - destruct (lock self) eqn:H.
    + unfold mark_failed. by rewrite with_lock_held.
    + by rewrite mark_failed_free.
Qed.

(** C10 (the code does not do this).  With a status file that cannot
    be written and the lock free, [save_status] called on its own
    catches the error, logs it, keeps the dictionary and returns; but
    [mark_failed] never gets that far: it updates the dictionary and
    blocks in [save_status], so it does not return, writes nothing and
    logs nothing. *)
Theorem mark_failed_unwritable_file (now : string) (self : t)
    (file_id : Z) (cache_type error : string) :
  let self0 := set_status_file (mkFile (contents (status_file self)) false)
                 (release self) in
  save_status now self0
    = returned () (add_log (ERROR, "Error saving cache status"%string)
                     (set_status (set_last_updated now) self0))
  ∧ returns (mark_failed now file_id cache_type error self0) = false
  ∧ (let s := final (mark_failed now file_id cache_type error self0) in
     lock s = true
     ∧ holds (failed (status s)) file_id cache_type = true
     ∧ status_file s = status_file self0
     ∧ log s = log self0).
Proof.
  cbv zeta. split; [by rewrite save_status_free|].
  rewrite mark_failed_free by done. cbn. repeat split.
  unfold holds, put. destruct (failed (status self) !! file_id) eqn:E.
  - rewrite lookup_alter. rewrite decide_True by done. rewrite E. cbn.
    rewrite lookup_insert_eq. by apply bool_decide_eq_true_2.
  - rewrite lookup_alter. rewrite decide_True by done. rewrite lookup_insert_eq. cbn.
    rewrite lookup_insert_eq. by apply bool_decide_eq_true_2.
Qed.

End ledger_calls.

(** ** Membership of a pair in the three maps *)

Section ledger_membership.

Import CacheStatus.




End ledger_membership.

(** ** The generation queue *)

Section ledger_queue.

Import CacheStatus.

Lemma extend_queue_queue file_ids st :
  generation_queue (extend_queue file_ids st)
  = generation_queue st ++ filter (λ fid, fid ∉ generation_queue st) file_ids.
Proof.
  unfold extend_queue. cbn. f_equal. apply list_filter_iff.
  intros fid. by rewrite elem_of_list_to_set.
Qed.

(** What [add_to_queue] does achieve: the old queue is a prefix of the
    new one, nothing already queued is appended, and an argument
    without repetitions keeps a duplicate-free queue duplicate-free. *)
Lemma add_to_queue_no_repetition now file_ids self :
  lock self = false → NoDup (generation_queue (status self)) → NoDup file_ids →
  let q := generation_queue (status (final (add_to_queue now file_ids self))) in
  NoDup q
  ∧ q = generation_queue (status self)
        ++ filter (λ fid, fid ∉ generation_queue (status self)) file_ids.
Proof.
  intros Hfree Hq Hids q. subst q. rewrite add_to_queue_free by done.
  cbn [final status set_lock set_status]. rewrite extend_queue_queue. split; [|done].
  apply NoDup_app. split_and!; [done| |by apply NoDup_filter].
  intros x Hx Hin. apply list_elem_of_filter in Hin. by destruct Hin.
Qed.

(** C6 (the code does not do this).  [add_to_queue([5, 5])] on a new
    ledger leaves the queue [[5; 5]]: the argument is filtered against
    the queue as it was before the call only, so an id repeated in the
    argument is appended as often as it occurs. *)
Theorem add_to_queue_repeated_id (now : string) (file : File Status) :
  let q := generation_queue (status (final (add_to_queue now [5; 5] (init now file)))) in
  q = [5; 5] ∧ ¬ NoDup q.
Proof.
  cbv zeta. rewrite add_to_queue_free by done.
  cbn [final status set_lock set_status]. rewrite extend_queue_queue.
  cbn. split; [done|].
  intros Hnd. apply NoDup_cons in Hnd as [Hnin _]. apply Hnin. by left.
Qed.

End ledger_queue.

(** ** The running average *)

Section ledger_average.

Import CacheStatus.




End ledger_average.

(** ** Point lookups and the hit and miss counters *)

Section lookups.

Import CacheManager.

(** The lookups of segments that count as the specification says: a
    file that opens and parses is one hit; no file, and a path that
    cannot be opened, are one miss. *)
Lemma get_cached_segments_counts (file_id : Z) (self : t) :
  let s := final (get_cached_segments file_id self) in
  match segments_dir self !! segments_file file_id with
  | Some nd =>
      if is_file nd && readable nd then
        match parsed nd with
        | Some payload =>
            get_cached_segments file_id self = returned payload s
            ∧ hits s = hits self + 1 ∧ misses s = misses self
        | None => True
        end
      else get_cached_segments file_id self = returned JNull s
           ∧ hits s = hits self ∧ misses s = misses self + 1
  | None => get_cached_segments file_id self = returned JNull s
            ∧ hits s = hits self ∧ misses s = misses self + 1
  end.
Proof.
  cbv zeta. unfold get_cached_segments.
  destruct (segments_dir self !! segments_file file_id) as [nd|]; [|done].
  destruct (is_file nd && readable nd); [|done].
  by destruct (parsed nd).
Qed.

(** C5 (the code does not do this).  A segments file that opens but
    does not parse: [get_cached_segments] returns [None], raising
    nothing, and has by then counted one hit (before [json.load]) and
    one miss (after the handler).  And [get_cached_plots] returns
    without having changed either counter, whatever the file. *)
Theorem get_cached_segments_corrupt_file (self : t) (file_id : Z)
    (mtime : Z) (removable : bool) :
  let corrupt := mkNode true mtime true None removable in
  let self0 := set_dirs (<[segments_file file_id := corrupt]> (segments_dir self))
                 (plots_dir self) (verification_dir self) self in
  (∃ s, get_cached_segments file_id self0 = returned JNull s
        ∧ hits s = hits self0 + 1 ∧ misses s = misses self0 + 1)
  ∧ returns (get_cached_plots file_id self) = true
  ∧ hits (final (get_cached_plots file_id self)) = hits self
  ∧ misses (final (get_cached_plots file_id self)) = misses self.
Proof.
  cbv zeta. split.
  - unfold get_cached_segments. cbn [segments_dir set_dirs].
    rewrite lookup_insert_eq. cbn. eauto.
  - unfold get_cached_plots.
    destruct (plots_dir self !! plots_meta_file file_id) as [nd|]; [|done].
    destruct (is_file nd && readable nd); [|done].
    by destruct (parsed nd).
Qed.

End lookups.

(** ** Cleanup *)

Section cleanup.

Import CacheManager.

Variable timedelta_float_hours : float → option Z.




End cleanup.

Section cleanup_examples.

Import CacheManager.



End cleanup_examples.

(** ** Dotted-path access to the configuration *)

Section dict_facts.

Context {A : Type}.
Implicit Types (d : list (string * A)).

Lemma dict_get_set_eq key (v : A) d : dict_get key (dict_set key v d) = Some v.
Proof.
  induction d as [|[k x] d IH]; cbn.
  - by rewrite decide_True.
  - case_decide; cbn; [by rewrite decide_True|by rewrite decide_False].
Qed.

Lemma dict_get_set_ne key key' (v : A) d :
  key ≠ key' → dict_get key' (dict_set key v d) = dict_get key' d.
Proof.
  intros Hne. induction d as [|[k x] d IH]; cbn.
  - by rewrite decide_False.
  - case_decide as Hk; cbn.
    + subst k. by rewrite !decide_False.
    + case_decide; [done|apply IH].
Qed.

Lemma dict_set_id key (v : A) d : dict_get key d = Some v → dict_set key v d = d.
Proof.
  induction d as [|[k x] d IH]; cbn; [done|].
  case_decide; [by intros [= ->]|]. intros Hd. by rewrite IH.
Qed.

End dict_facts.

Section configuration.

Import CacheConfiguration.

Lemma split_nonempty key_path : split key_path ≠ [].
Proof.
  induction key_path as [|c rest IH]; cbn; [done|].
  destruct (Ascii.eqb c "."); [done|]. by destruct (split rest).
Qed.

Lemma split_removelast_last key_path :
  split key_path
  = removelast (split key_path) ++ [List.last (split key_path) EmptyString].
Proof. apply app_removelast_last, split_nonempty. Qed.

Lemma mappings_along_not_dict keys config :
  is_dict config = false → mappings_along keys config = false.
Proof.
  intros H. unfold mappings_along. destruct keys; cbn; by rewrite H.
Qed.

Lemma mappings_along_nil d : mappings_along [] (JDict d) = true.
Proof. done. Qed.

Lemma mappings_along_cons key keys d :
  mappings_along (key :: keys) (JDict d)
  = match dict_get key d with
    | Some child => mappings_along keys child
    | None => true
    end.
Proof.
  unfold mappings_along. cbn [prefixes forallb get_keys is_dict andb].
  generalize (prefixes keys). intros ps.
  induction ps as [|q ps IH]; cbn [fmap list_fmap forallb get_keys].
  - by destruct (dict_get key d).
  - rewrite IH. by destruct (dict_get key d).
Qed.

(** The walk of [set] raises as soon as the path runs into a value
    that is not a mapping, and has changed nothing by then. *)
Lemma set_keys_raises keys last value config :
  mappings_along keys config = false →
  set_keys keys last value config = (config, Some TypeError).
Proof.
  revert config. induction keys as [|key keys IH]; intros config.
  - destruct config; cbn; try done.
  - destruct config as [| | | | | |d]; try done.
    rewrite mappings_along_cons. cbn [set_keys].
    destruct (dict_get key d) as [child|] eqn:E; [|done].
    intros H. rewrite E, (IH child H). by rewrite dict_set_id.
Qed.

(** Otherwise it succeeds, and [get] along the same path finds the
    value. *)
Lemma set_keys_succeeds keys last value config :
  mappings_along keys config = true →
  ∃ config', set_keys keys last value config = (config', None)
             ∧ mappings_along keys config' = true
             ∧ ∀ default, get_keys (keys ++ [last]) config' default = value.
Proof.
  revert config. induction keys as [|key keys IH]; intros config.
  - destruct config as [| | | | | |d]; try done. intros _.
    eexists. split; [reflexivity|]. split; [done|]. intros default.
    cbn. by rewrite dict_get_set_eq.
  - destruct config as [| | | | | |d]; try done.
    rewrite mappings_along_cons. cbn [set_keys].
    destruct (dict_get key d) as [child|] eqn:E.
    + intros H. rewrite E. destruct (IH child H) as (child' & -> & Hm & Hget).
      eexists. split; [reflexivity|]. split.
      * by rewrite mappings_along_cons, dict_get_set_eq.
      * intros default. cbn. by rewrite dict_get_set_eq.
    + intros _. rewrite dict_get_set_eq.
      destruct (IH (JDict [])) as (child' & -> & Hm & Hget).
      { destruct keys; [done|]. by rewrite mappings_along_cons. }
      eexists. split; [reflexivity|]. split.
      * by rewrite mappings_along_cons, dict_get_set_eq.
      * intros default. cbn. by rewrite dict_get_set_eq.
Qed.




End configuration.

(** ** Triggering generation twice *)

Section trigger.

Import CacheManager.

Local Notation "'queue' m" :=
  (CacheStatus.generation_queue (CacheStatus.status (status m)))
  (at level 10, m at level 9, only parsing).
Local Notation "'done_map' m" :=
  (CacheStatus.completed (CacheStatus.status (status m)))
  (at level 10, m at level 9, only parsing).










End trigger.

(** ** More on the window and on the neighbours of an item *)

Section sequence.

Import FileSequenceManager.

Lemma get_cache_targets_absent (seq : list Z) cur Nr Nf :
  cur ∉ seq → get_cache_targets seq cur Nr Nf = [].
Proof. intros H. unfold get_cache_targets. by rewrite bool_decide_eq_false_2. Qed.

Lemma get_cache_targets_present (seq : list Z) cur i Nr Nf :
  Py.index cur seq = Some i → 0 ≤ Nr → 0 ≤ Nf →
  get_cache_targets seq cur Nr Nf
  = window seq (Z.to_nat (Z.max 0 (i - Nr)))
      (Z.to_nat (Z.min (Py.len seq) (i + Nf + 1))).
Proof.
  intros Hi HNr HNf. pose proof (index_range _ _ _ Hi).
  unfold get_cache_targets.
  rewrite bool_decide_eq_true_2
    by (eapply list_elem_of_lookup_2, index_lookup, Hi).
  rewrite Hi. cbv zeta. apply slice_window; lia.
Qed.

Lemma index_of_lookup (seq : list Z) (n : nat) x :
  NoDup seq → seq !! n = Some x → Py.index x seq = Some (Z.of_nat n).
Proof.
  intros Hnd Hn.
  destruct (index_elem_of x seq) as [i Hi]; [by eapply list_elem_of_lookup_2|].
  pose proof (index_range _ _ _ Hi). pose proof (index_lookup _ _ _ Hi) as Hl.
  rewrite Hi. f_equal.
  pose proof (NoDup_lookup _ _ _ _ Hnd Hl Hn). lia.
Qed.

(** X1.  Whatever the two widths are (negative ones included), the
    targets are a run of consecutive items of the sequence: no id is
    made up, none is left out in between, the order is kept. *)
Theorem get_cache_targets_infix (seq : list Z) (cur Nr Nf : Z) :
  ∃ before after, seq = before ++ get_cache_targets seq cur Nr Nf ++ after.
Proof.
  unfold get_cache_targets. case_bool_decide; [|by exists [], seq].
  destruct (Py.index cur seq) as [i|]; [|by exists [], seq].
  cbv zeta. unfold Py.slice.
  match goal with
  | |- context [take ?n (drop ?s seq)] =>
      exists (take s seq), (drop n (drop s seq))
  end.
  by rewrite !take_drop.
Qed.

(** X2.  With non-negative widths the current item is among the targets
    exactly when it is in the sequence, the targets are empty exactly
    when it is not, and there are never more than [Nr + Nf + 1] of
    them. *)
Theorem get_cache_targets_current (seq : list Z) (cur Nr Nf : Z) :
  0 ≤ Nr → 0 ≤ Nf →
  (cur ∈ get_cache_targets seq cur Nr Nf ↔ cur ∈ seq)
  ∧ (get_cache_targets seq cur Nr Nf = [] ↔ cur ∉ seq)
  ∧ Py.len (get_cache_targets seq cur Nr Nf) ≤ Nr + Nf + 1.
Proof.
  intros HNr HNf. destruct (decide (cur ∈ seq)) as [Hin|Hout].
  - destruct (index_elem_of cur seq Hin) as [i Hi].
    pose proof (index_range _ _ _ Hi) as Hr. pose proof (index_lookup _ _ _ Hi) as Hl.
    rewrite (get_cache_targets_present seq cur i) by done.
    unfold Py.len in *. unfold window.
    set (lo := Z.to_nat (Z.max _ _)). set (hi := Z.to_nat (Z.min _ _)).
    assert (Hc : take (hi - lo) (drop lo seq) !! (Z.to_nat i - lo)%nat = Some cur).
    { rewrite lookup_take_lt by lia. rewrite lookup_drop. rewrite <- Hl. f_equal. lia. }
    split; [|split].
    + split; [done|]. intros _. by eapply list_elem_of_lookup_2.
    + split; [|done]. intros Hnil. rewrite Hnil in Hc. done.
    + rewrite length_take, length_drop. lia.
  - rewrite get_cache_targets_absent by done. split; [|split].
    + split; [by intros ?%elem_of_nil|done].
    + done.
    + unfold Py.len. cbn. lia.
Qed.

Lemma get_cache_targets_current_witness :
  0 ≤ 3 ∧ 0 ≤ 10
  ∧ get_cache_targets [4; 8; 15] 16 3 10 = []
  ∧ Py.len (get_cache_targets [4; 8; 15; 16; 23; 42] 15 1 2) ≤ 1 + 2 + 1.
Proof.
  split; [lia|]. split; [lia|]. split.
  - apply (get_cache_targets_current [4; 8; 15] 16 3 10); [lia|lia|].
    intros H. repeat (apply elem_of_cons in H as [H|H]; [discriminate H|]).
    by apply elem_of_nil in H.
  - apply (get_cache_targets_current [4; 8; 15; 16; 23; 42] 15 1 2); lia.
Defined.

(** X3.  Clamping at the two ends: for the first item of the sequence
    the targets are its first [Nf + 1] items, and for the last item
    (occurring nowhere before) they are its last [Nr + 1] items. *)
Theorem get_cache_targets_at_ends (cur : Z) (rest front : list Z) (Nr Nf : Z) :
  0 ≤ Nr → 0 ≤ Nf → cur ∉ front →
  get_cache_targets (cur :: rest) cur Nr Nf = take (Z.to_nat (Nf + 1)) (cur :: rest)
  ∧ get_cache_targets (front ++ [cur]) cur Nr Nf
    = drop (length front - Z.to_nat Nr) (front ++ [cur]).
Proof.
  intros HNr HNf Hfront. split.
  - rewrite (get_cache_targets_present _ cur 0) by (done || (cbn; by rewrite decide_True)).
    unfold window, Py.len. rewrite Z.max_l by lia.
    change (Z.to_nat 0) with 0%nat. cbn [drop]. rewrite Nat.sub_0_r.
    destruct (Z.le_gt_cases (Z.of_nat (length (cur :: rest))) (0 + Nf + 1)).
    + rewrite Z.min_l by lia. rewrite Nat2Z.id.
      rewrite !take_ge by lia. done.
    + rewrite Z.min_r by lia. done.
  - assert (Hi : Py.index cur (front ++ [cur]) = Some (Z.of_nat (length front))).
    { clear -Hfront. induction front as [|y front IH]; cbn.
      - by rewrite decide_True.
      - apply not_elem_of_cons in Hfront as [Hne Hfront].
        rewrite decide_False by done. rewrite IH by done. cbn. f_equal. lia. }
    rewrite (get_cache_targets_present _ cur _ _ _ Hi) by done.
    unfold window, Py.len. rewrite length_app. cbn [length].
    rewrite Z.min_l by lia.
    replace (Z.to_nat (Z.max 0 (Z.of_nat (length front) - Nr)))
      with (length front - Z.to_nat Nr)%nat by lia.
    apply take_ge. rewrite length_drop, length_app. cbn. lia.
Qed.

Lemma get_cache_targets_at_ends_witness :
  get_cache_targets [101; 102; 103; 104; 105] 101 3 2 = [101; 102; 103]
  ∧ get_cache_targets ([101; 102; 103; 104] ++ [105]) 105 1 9 = [104; 105].
Proof.
  destruct (get_cache_targets_at_ends 101 [102; 103; 104; 105] [] 3 2) as [H1 _];
    [lia|lia|apply not_elem_of_nil|].
  destruct (get_cache_targets_at_ends 105 [] [101; 102; 103; 104] 1 9) as [_ H2];
    [lia|lia| |].
  { intros H. repeat (apply elem_of_cons in H as [H|H]; [discriminate H|]).
    by apply elem_of_nil in H. }
  split; [rewrite H1|rewrite H2]; reflexivity.
Defined.

Lemma get_next_file_Some (seq : list Z) x y :
  get_next_file seq x = Some y ↔
  ∃ i, Py.index x seq = Some i ∧ seq !! Z.to_nat (i + 1) = Some y.
Proof.
  unfold get_next_file. case_bool_decide as Hin.
  - destruct (index_elem_of x seq Hin) as [i Hi]. rewrite Hi.
    pose proof (index_range _ _ _ Hi). unfold Py.len in *.
    destruct (Z.ltb_spec (i + 1) (Z.of_nat (length seq))).
    + split; [eauto|]. by intros (j & [= <-] & Hy).
    + split; [done|]. intros (j & [= <-] & Hy).
      apply lookup_lt_Some in Hy. lia.
  - split; [done|]. intros (i & Hi & _). destruct Hin.
    eapply list_elem_of_lookup_2, index_lookup, Hi.
Qed.

Lemma get_previous_file_Some (seq : list Z) x y :
  get_previous_file seq x = Some y ↔
  ∃ i, Py.index x seq = Some i ∧ 0 < i ∧ seq !! Z.to_nat (i - 1) = Some y.
Proof.
  unfold get_previous_file. case_bool_decide as Hin.
  - destruct (index_elem_of x seq Hin) as [i Hi]. rewrite Hi.
    destruct (Z.ltb_spec 0 i).
    + split; [eauto|]. by intros (j & [= <-] & _ & Hy).
    + split; [done|]. intros (j & [= <-] & ? & _). lia.
  - split; [done|]. intros (i & Hi & _). destruct Hin.
    eapply list_elem_of_lookup_2, index_lookup, Hi.
Qed.

(** X4.  In a sequence without repeated ids, "next" and "previous" undo
    each other: [y] is the next item of [x] exactly when [x] is the
    previous item of [y]. *)
Theorem next_previous_inverse (seq : list Z) (x y : Z) :
  NoDup seq →
  get_next_file seq x = Some y ↔ get_previous_file seq y = Some x.
Proof.
  intros Hnd. rewrite get_next_file_Some, get_previous_file_Some. split.
  - intros (i & Hi & Hy). pose proof (index_range _ _ _ Hi).
    exists (i + 1). split; [|split; [lia|]].
    + rewrite (index_of_lookup seq _ y Hnd Hy). f_equal. lia.
    + replace (i + 1 - 1) with i by lia. by apply index_lookup.
  - intros (j & Hj & Hpos & Hx). pose proof (index_range _ _ _ Hj).
    exists (j - 1). split.
    + rewrite (index_of_lookup seq _ x Hnd Hx). f_equal. lia.
    + replace (j - 1 + 1) with j by lia. by apply index_lookup.
Qed.

Lemma next_previous_inverse_witness :
  NoDup [3; 5; 8] ∧ get_next_file [3; 5; 8] 5 = Some 8
  ∧ get_previous_file [3; 5; 8] 8 = Some 5.
Proof.
  assert (Hnd : NoDup [3; 5; 8]) by compute_done.
  split; [exact Hnd|]. split; [reflexivity|].
  apply (next_previous_inverse [3; 5; 8] 5 8 Hnd). reflexivity.
Defined.

(** X5.  The neighbours of the current item are in its window: with
    [Nf >= 1] the next item is a target, and with [Nr >= 1] the
    previous one is. *)
Theorem neighbours_are_targets (seq : list Z) (cur y Nr Nf : Z) :
  0 ≤ Nr → 0 ≤ Nf →
  (1 ≤ Nf → get_next_file seq cur = Some y → y ∈ get_cache_targets seq cur Nr Nf)
  ∧ (1 ≤ Nr → get_previous_file seq cur = Some y
     → y ∈ get_cache_targets seq cur Nr Nf).
Proof.
  intros HNr HNf. split.
  - intros H1 (i & Hi & Hy)%get_next_file_Some.
    pose proof (index_range _ _ _ Hi). pose proof (lookup_lt_Some _ _ _ Hy).
    rewrite (get_cache_targets_present seq cur i) by done.
    unfold window, Py.len in *. set (lo := Z.to_nat (Z.max _ _)). set (hi := Z.to_nat (Z.min _ _)).
    apply (list_elem_of_lookup_2 _ (Z.to_nat (i + 1) - lo)%nat).
    rewrite lookup_take_lt by lia. rewrite lookup_drop. rewrite <- Hy. f_equal. lia.
  - intros H1 (i & Hi & Hpos & Hy)%get_previous_file_Some.
    pose proof (index_range _ _ _ Hi).
    rewrite (get_cache_targets_present seq cur i) by done.
    unfold window, Py.len in *. set (lo := Z.to_nat (Z.max _ _)). set (hi := Z.to_nat (Z.min _ _)).
    apply (list_elem_of_lookup_2 _ (Z.to_nat (i - 1) - lo)%nat).
    rewrite lookup_take_lt by lia. rewrite lookup_drop. rewrite <- Hy. f_equal. lia.
Qed.

Lemma neighbours_are_targets_witness :
  get_next_file [3; 5; 8; 13] 5 = Some 8
  ∧ 8 ∈ get_cache_targets [3; 5; 8; 13] 5 0 1.
Proof.
  split; [reflexivity|].
  destruct (neighbours_are_targets [3; 5; 8; 13] 5 8 0 1) as [H _]; [lia|lia|].
  apply H; [lia|reflexivity].
Defined.

End sequence.

(** ** More on dotted paths *)

Section paths.

Import CacheConfiguration.

Lemma dict_set_set {A} key (v w : A) (d : list (string * A)) :
  dict_set key v (dict_set key w d) = dict_set key v d.
Proof.
  induction d as [|[k x] d IH]; cbn.
  - by rewrite decide_True.
  - case_decide; cbn; [by rewrite decide_True|].
    rewrite decide_False by done. by rewrite IH.
Qed.

Lemma split_head key_path :
  head (split key_path)
  = head (removelast (split key_path) ++ [List.last (split key_path) EmptyString]).
Proof. by rewrite <- split_removelast_last. Qed.

(** The walk of [set] touches the entry of its first key only. *)
Lemma set_keys_other_entry keys last value d config' key' :
  set_keys keys last value (JDict d) = (config', None) →
  head (keys ++ [last]) ≠ Some key' →
  ∃ d', config' = JDict d' ∧ dict_get key' d' = dict_get key' d.
Proof.
  destruct keys as [|key keys]; cbn.
  - intros [= <-] Hne. eexists. split; [done|].
    apply dict_get_set_ne. congruence.
  - intros Hset Hne. assert (key ≠ key') by congruence.
    destruct (dict_get key d) as [child|] eqn:E.
    + rewrite E in Hset. destruct (set_keys keys last value child) as [child' r].
      injection Hset as <- ->. eexists. split; [done|]. by apply dict_get_set_ne.
    + rewrite dict_get_set_eq in Hset.
      destruct (set_keys keys last value (JDict [])) as [child' r].
      injection Hset as <- ->. eexists. split; [done|].
      by rewrite !dict_get_set_ne.
Qed.

(** X6.  [set] on one path does not disturb what [get] finds on a path
    that starts with another key. *)
Theorem set_leaves_other_keys (p q : string) (value default : json) (self self' : t) :
  head (split p) ≠ head (split q) →
  set p value self = returned () self' →
  get q default self' = get q default self.
Proof.
  intros Hne Hset. unfold set in Hset.
  destruct (is_dict (config self)) eqn:Hroot.
  2:{ rewrite set_keys_raises in Hset by (by apply mappings_along_not_dict). done. }
  destruct (config self) as [| | | | | |d] eqn:Hc; try done.
  destruct (set_keys _ _ _ _) as [config' [e|]] eqn:E; [done|].
  injection Hset as <-. unfold get. cbn.
  assert (config (save_config (mk config' (config_file self) (log self))) = config')
    as -> by (unfold save_config; by destruct (write_file _ _)).
  rewrite split_head in Hne.
  destruct (split q) as [|key' ks] eqn:Hq; [by destruct (split_nonempty q)|].
  destruct (set_keys_other_entry _ _ _ _ _ key' E) as (d' & -> & Hd); [done|].
  rewrite Hc. cbn. by rewrite Hd.
Qed.

Lemma set_leaves_other_keys_witness :
  ∃ self', set "cache_window.Nr" (JInt 7) (init NoFile (mkFile None true))
           = returned () self'
           ∧ get "cache_limits.max_cache_age_hours" JNull self' = JInt 24.
Proof.
  eexists. split; [reflexivity|].
  rewrite (set_leaves_other_keys "cache_window.Nr" "cache_limits.max_cache_age_hours"
             (JInt 7) JNull (init NoFile (mkFile None true)) _);
    [reflexivity|discriminate|reflexivity].
Defined.

Lemma set_keys_again keys last value config config' :
  set_keys keys last value config = (config', None) →
  set_keys keys last value config' = (config', None).
Proof.
  revert config config'. induction keys as [|key keys IH]; intros config config'.
  - destruct config; cbn; try done. intros [= <-]. cbn. by rewrite dict_set_set.
  - destruct config as [| | | | | |d]; try done. cbn [set_keys].
    set (d1 := match dict_get key d with Some _ => d | None => _ end).
    destruct (dict_get key d1) as [child|]; [|done].
    destruct (set_keys keys last value child) as [child' r] eqn:E.
    intros [= <- ->]. cbn [set_keys]. rewrite !dict_get_set_eq.
    rewrite (IH _ _ E). by rewrite dict_set_set.
Qed.

(** X7.  [set] is idempotent: repeating a successful call with the same
    path and value succeeds again and leaves tree and file as the first
    call left them. *)
Theorem set_twice (key_path : string) (value : json) (self self1 : t) :
  set key_path value self = returned () self1 →
  ∃ self2, set key_path value self1 = returned () self2
           ∧ config self2 = config self1
           ∧ config_file self2 = config_file self1.
Proof.
  unfold set. destruct (set_keys _ _ _ (config self)) as [config' [e|]] eqn:E; [done|].
  intros [= <-].
  assert (Hc : config (save_config (mk config' (config_file self) (log self))) = config')
    by (unfold save_config; by destruct (write_file _ _)).
  rewrite Hc, (set_keys_again _ _ _ _ _ E).
  eexists. split; [reflexivity|].
  unfold save_config, write_file. cbn.
  destruct (writable (config_file self)) eqn:Hw; cbn; by rewrite ?Hw.
Qed.

Lemma set_twice_witness :
  ∃ self1 self2,
    set "a.b" (JInt 1) (init NoFile (mkFile None true)) = returned () self1
    ∧ set "a.b" (JInt 1) self1 = returned () self2
    ∧ config self2 = config self1.
Proof.
  destruct (set_twice "a.b" (JInt 1) (init NoFile (mkFile None true)) _ eq_refl)
    as (self2 & H2 & Hc & _).
  eexists _, self2. split; [reflexivity|]. split; [exact H2|exact Hc].
Defined.

Lemma split_append p q :
  split (String.append p (String "." q)) = split p ++ split q.
Proof.
  induction p as [|c p IH]; [done|].
  change (String.append (String c p) (String "." q))
    with (String c (String.append p (String "." q))).
  cbn [split]. rewrite IH.
  destruct (Ascii.eqb c "."); [done|].
  destruct (split p) eqn:E; [by destruct (split_nonempty p)|done].
Qed.

Lemma get_keys_below keys_p keys_q config default :
  keys_q ≠ [] → is_dict (get_keys keys_p config JNull) = false →
  get_keys (keys_p ++ keys_q) config default = default.
Proof.
  intros Hq. revert config. induction keys_p as [|key keys_p IH]; intros config.
  - cbn. destruct keys_q; [done|]. by destruct config.
  - cbn. destruct config as [| | | | | |d]; try done.
    destruct (dict_get key d); [apply IH|done].
Qed.

(** X8.  [get] never raises, and below a node that is missing or is not
    a mapping it finds nothing: when [get(p)] gives no mapping,
    [get(p + "." + q, default)] gives [default], whatever [q] is. *)
Theorem get_below_scalar (p q : string) (default : json) (self : t) :
  is_dict (get p JNull self) = false →
  get (String.append p (String "." q)) default self = default.
Proof.
  intros H. unfold get. rewrite split_append.
  apply get_keys_below; [apply split_nonempty|done].
Qed.

Lemma get_below_scalar_witness :
  get "auto_cleanup" JNull (init NoFile (mkFile None true)) = JBool true
  ∧ get "auto_cleanup.x" (JInt 5) (init NoFile (mkFile None true)) = JInt 5
  ∧ get "missing.deeper.still" (JInt 6) (init NoFile (mkFile None true)) = JInt 6.
Proof.
  split; [reflexivity|]. split.
  - apply (get_below_scalar "auto_cleanup" "x"). reflexivity.
  - apply (get_below_scalar "missing" "deeper.still"). reflexivity.
Defined.

End paths.

(** ** Loading the configuration *)

Section loading.

Import CacheConfiguration.

Lemma deep_merge_cons key value rest default :
  _deep_merge (JDict ((key, value) :: rest)) default
  = _deep_merge (JDict rest)
      match dict_get key default, value with
      | Some (JDict sub), JDict _ => dict_set key (JDict (_deep_merge value sub)) default
      | _, _ => dict_set key value default
      end.
Proof. done. Qed.

Lemma dict_get_absent {A} key (d : list (string * A)) :
  key ∉ d.*1 → dict_get key d = None.
Proof.
  induction d as [|[k x] d IH]; cbn; [done|].
  intros [Hne Hd]%not_elem_of_cons. rewrite decide_False by done. by apply IH.
Qed.

(** X9.  What a key holds after a merge, for an override whose keys are
    distinct (as the keys of a JSON object are once loaded): a key the
    override does not have keeps the default's value; a key under which
    both sides hold a mapping holds the merge of the two; any other key
    of the override holds the override's value. *)
Theorem deep_merge_lookup (override default : list (string * json)) (key : string) :
  NoDup override.*1 →
  dict_get key (_deep_merge (JDict override) default)
  = match dict_get key override with
    | None => dict_get key default
    | Some value =>
        match dict_get key default, value with
        | Some (JDict sub), JDict _ => Some (JDict (_deep_merge value sub))
        | _, _ => Some value
        end
    end.
Proof.
  revert default. induction override as [|[k v] override IH]; intros default Hnd.
  - done.
  - apply NoDup_cons in Hnd as [Hk Hnd]. rewrite deep_merge_cons, IH by done.
    cbn [dict_get]. case_decide as Hkey.
    + subst k. rewrite dict_get_absent by done.
      destruct (dict_get key default) as [[| | | | | |sub]|], v;
        by rewrite dict_get_set_eq.
    + destruct (dict_get k default) as [[| | | | | |sub]|], v;
        by rewrite dict_get_set_ne.
Qed.

Lemma deep_merge_lookup_witness :
  let override := [("cache_window"%string, JDict [("Nr"%string, JInt 7)]);
                   ("auto_cleanup"%string, JBool false)] in
  let default := match _load_default_config with JDict d => d | _ => [] end in
  NoDup override.*1
  ∧ dict_get "auto_cleanup" (_deep_merge (JDict override) default) = Some (JBool false)
  ∧ dict_get "cache_window" (_deep_merge (JDict override) default)
    = Some (JDict [("Nr"%string, JInt 7); ("Nf"%string, JInt 10)])
  ∧ dict_get "performance" (_deep_merge (JDict override) default)
    = dict_get "performance" default.
Proof.
  cbv zeta. split; [compute_done|].
  rewrite !deep_merge_lookup by compute_done.
  split; [reflexivity|]. split; reflexivity.
Defined.

Lemma deep_merge_keeps_keys override default key :
  is_Some (dict_get key default) →
  is_Some (dict_get key (_deep_merge override default)).
Proof.
  destruct override as [| | | | | |items]; try done.
  revert default. induction items as [|[k v] items IH]; intros default Hd; [done|].
  rewrite deep_merge_cons. apply IH.
  destruct (decide (k = key)) as [->|Hne].
  - destruct (dict_get key default) as [[| | | | | |sub]|], v;
      by rewrite dict_get_set_eq.
  - destruct (dict_get k default) as [[| | | | | |sub]|], v;
      by rewrite dict_get_set_ne.
Qed.

(** X10.  Whatever the configuration file holds, the constructor ends
    with a mapping that has every top-level key of the defaults; with
    no file, an unreadable file or a document that is not an object it
    has exactly the defaults; and nothing is written. *)
Theorem init_keeps_default_keys (file : stored) (config_file0 : File json) :
  let self := init file config_file0 in
  is_dict (config self) = true
  ∧ (∀ key, is_Some (entry key _load_default_config) →
            is_Some (entry key (config self)))
  ∧ match file with
    | Document (JDict _) => True
    | _ => config self = _load_default_config
    end
  ∧ config_file self = config_file0.
Proof.
  cbv zeta. unfold init, _load_config.
  destruct file as [| |[| | | | | |items]]; cbn [config CacheConfiguration.config_file];
    try done.
  split; [done|]. split; [|done].
  intros key Hk. by apply deep_merge_keeps_keys.
Qed.

End loading.

(** ** More on the ledger *)

Section ledger_more.

Import CacheStatus.

Lemma mutating_call_blocked (op : call t ()) now file_id file_ids cache_type error
    generation_time self :
  op ∈ mutating_calls now file_id file_ids cache_type error generation_time →
  lock self = true → op self = blocked self.
Proof.
  intros Hop Hheld. unfold mutating_calls in Hop.
  repeat (apply elem_of_cons in Hop as [->|Hop]; [by apply with_lock_held|]).
  by apply elem_of_nil in Hop.
Qed.

Lemma mutating_call_final (op : call t ()) now file_id file_ids cache_type error
    generation_time self :
  op ∈ mutating_calls now file_id file_ids cache_type error generation_time →
  lock self = false → 0 ≤ total_generated (stats (status self)) →
  ∃ s, op self = blocked s ∧ lock s = true.
Proof.
  intros Hop Hfree Hn. unfold mutating_calls in Hop.
  apply elem_of_cons in Hop as [->|Hop].
  { rewrite update_current_file_free by done. by eexists. }
  apply elem_of_cons in Hop as [->|Hop].
  { rewrite add_to_queue_free by done. by eexists. }
  apply elem_of_cons in Hop as [->|Hop].
  { rewrite mark_in_progress_free by done. by eexists. }
  apply elem_of_cons in Hop as [->|Hop].
  { rewrite mark_completed_free by (done || lia). by eexists. }
  apply elem_of_cons in Hop as [->|Hop]; [|by apply elem_of_nil in Hop].
  rewrite mark_failed_free by done. by eexists.
Qed.

(** X11.  One mutating call freezes the ledger.  After any of the five
    mutating methods has been called on a ledger whose lock was free,
    the lock is held for good: every later call of a mutating method,
    of [get_queue_status] and of [save_status] blocks and leaves the
    ledger as it is. *)
Theorem ledger_frozen_after_first_call (first later : call t ())
    now file_id file_ids cache_type error generation_time
    now' file_id' file_ids' cache_type' error' generation_time' (self : t) :
  lock self = false → 0 ≤ total_generated (stats (status self)) →
  first ∈ mutating_calls now file_id file_ids cache_type error generation_time →
  later ∈ mutating_calls now' file_id' file_ids' cache_type' error' generation_time' →
  let s := final (first self) in
  lock s = true
  ∧ later s = blocked s
  ∧ get_queue_status s = blocked s
  ∧ save_status now' s = blocked s.
Proof.
  intros Hfree Hn Hfirst Hlater s.
  destruct (mutating_call_final _ _ _ _ _ _ _ _ Hfirst Hfree Hn) as (s1 & Hs & Hs1).
  assert (Hheld : lock s = true) by (subst s; by rewrite Hs).
  split; [done|]. split; [by eapply mutating_call_blocked|].
  split; [by apply with_lock_held|by apply save_status_held].
Qed.

Lemma ledger_frozen_after_first_call_witness :
  let self := init "t0" (mkFile None true) in
  let s := final (update_current_file "t1" 7 self) in
  lock self = false
  ∧ mark_in_progress "t2" 7 "segments" s = blocked s
  ∧ get_queue_status s = blocked s.
Proof.
  cbv zeta. split; [reflexivity|].
  destruct (ledger_frozen_after_first_call
              (update_current_file "t1" 7) (mark_in_progress "t2" 7 "segments")
              "t1" 7 [] "" "" 0%float "t2" 7 [] "segments" "" 0%float
              (init "t0" (mkFile None true)))
    as (_ & H1 & H2 & _); [reflexivity|cbn; lia| | |].
  - apply list_elem_of_here.
  - do 2 apply list_elem_of_further. apply list_elem_of_here.
  - split; [exact H1|exact H2].
Defined.

Lemma holds_put_mono {R} file_id cache_type (r : R) (d : gmap Z (gmap string R))
    file_id' cache_type' :
  holds d file_id' cache_type' = true →
  holds (put file_id cache_type r d) file_id' cache_type' = true.
Proof.
  intros H. destruct (decide ((file_id', cache_type') = (file_id, cache_type)))
    as [[= -> ->]|Hne].
  - apply holds_put_eq.
  - by rewrite holds_put_ne.
Qed.

(** X12.  Completed records are never taken back: whatever the state of
    the ledger and of its lock, a pair that [is_cached] reports as
    cached is still reported so after any call of a mutating method. *)
Theorem is_cached_stays (op : call t ())
    now file_id file_ids cache_type error generation_time
    (file_id' : Z) (cache_type' : string) (self : t) :
  op ∈ mutating_calls now file_id file_ids cache_type error generation_time →
  is_cached file_id' cache_type' self = true →
  is_cached file_id' cache_type' (final (op self)) = true.
Proof.
  intros Hop Hc. destruct (lock self) eqn:Hl.
  { by rewrite (mutating_call_blocked _ _ _ _ _ _ _ _ Hop Hl). }
  unfold mutating_calls in Hop. unfold is_cached in *.
  apply elem_of_cons in Hop as [->|Hop].
  { by rewrite update_current_file_free. }
  apply elem_of_cons in Hop as [->|Hop].
  { by rewrite add_to_queue_free. }
  apply elem_of_cons in Hop as [->|Hop].
  { by rewrite mark_in_progress_free. }
  apply elem_of_cons in Hop as [->|Hop].
  { destruct (mark_completed_maps now file_id cache_type generation_time self Hl)
      as (_ & -> & _). by apply holds_put_mono. }
  apply elem_of_cons in Hop as [->|Hop]; [|by apply elem_of_nil in Hop].
  by rewrite mark_failed_free.
Qed.

Lemma is_cached_stays_witness :
  let self := release (final (mark_completed "t1" 1 "plots" 2%float
                                (init "t0" (mkFile None true)))) in
  is_cached 1 "plots" self = true
  ∧ is_cached 1 "plots" (final (mark_failed "t2" 1 "plots" "late error" self)) = true.
Proof.
  cbv zeta. split; [reflexivity|].
  apply (is_cached_stays _ "t2" 1 [] "plots" "late error" 0%float).
  - do 4 apply list_elem_of_further. apply list_elem_of_here.
  - reflexivity.
Defined.

Lemma no_empty_entry_put {R} file_id cache_type (r : R) (d : gmap Z (gmap string R)) :
  no_empty_entry d → no_empty_entry (put file_id cache_type r d).
Proof.
  intros Hd id types. destruct (decide (file_id = id)) as [<-|Hne].
  - rewrite put_lookup_eq. intros [= <-]. apply insert_non_empty.
  - rewrite put_lookup_ne by done. apply Hd.
Qed.

Lemma no_empty_entry_remove file_id cache_type (d : gmap Z (gmap string InProgress)) :
  no_empty_entry d → no_empty_entry (remove_in_progress file_id cache_type d).
Proof.
  intros Hd id types. unfold remove_in_progress.
  destruct (d !! file_id) as [ts|] eqn:E; [|apply Hd].
  case_decide as Hemp.
  - destruct (decide (file_id = id)) as [<-|Hne].
    + by rewrite lookup_delete_eq.
    + rewrite lookup_delete_ne by done. apply Hd.
  - destruct (decide (file_id = id)) as [<-|Hne].
    + rewrite lookup_insert_eq. by intros [= <-].
    + rewrite lookup_insert_ne by done. apply Hd.
Qed.

(** X13.  The in-progress map never keeps a file id without a type:
    if no id maps to an empty dictionary before a mutating call, none
    does after it.  (So the ["in_progress"] count of
    [get_queue_status] counts files with something in progress.)  A new
    ledger is in that state. *)
Theorem in_progress_has_no_empty_entry (op : call t ())
    now file_id file_ids cache_type error generation_time (self : t)
    (file : File Status) :
  op ∈ mutating_calls now file_id file_ids cache_type error generation_time →
  no_empty_entry (in_progress (status self)) →
  no_empty_entry (in_progress (status (final (op self))))
  ∧ no_empty_entry (in_progress (status (init now file))).
Proof.
  intros Hop Hd. split; [|by intros id types].
  destruct (lock self) eqn:Hl.
  { by rewrite (mutating_call_blocked _ _ _ _ _ _ _ _ Hop Hl). }
  unfold mutating_calls in Hop.
  apply elem_of_cons in Hop as [->|Hop].
  { by rewrite update_current_file_free. }
  apply elem_of_cons in Hop as [->|Hop].
  { by rewrite add_to_queue_free. }
  apply elem_of_cons in Hop as [->|Hop].
  { rewrite mark_in_progress_free by done. by apply no_empty_entry_put. }
  apply elem_of_cons in Hop as [->|Hop].
  { destruct (mark_completed_maps now file_id cache_type generation_time self Hl)
      as (-> & _). by apply no_empty_entry_remove. }
  apply elem_of_cons in Hop as [->|Hop]; [|by apply elem_of_nil in Hop].
  rewrite mark_failed_free by done. by apply no_empty_entry_remove.
Qed.

Lemma in_progress_has_no_empty_entry_witness :
  let self := init "t0" (mkFile None true) in
  no_empty_entry (in_progress (status self))
  ∧ no_empty_entry
      (in_progress (status (final (mark_in_progress "t1" 3 "plots" self)))).
Proof.
  cbv zeta.
  assert (H0 : no_empty_entry (in_progress (status (init "t0" (mkFile None true)))))
    by (by intros id types).
  split; [exact H0|].
  apply (in_progress_has_no_empty_entry _ "t1" 3 [] "plots" "" 0%float
           (init "t0" (mkFile None true)) (mkFile None true)).
  - do 2 apply list_elem_of_further. apply list_elem_of_here.
  - exact H0.
Defined.




(** X15.  [add_to_queue] only appends: on a ledger whose lock is free
    the old queue is a prefix of the new one, every requested id is in
    the new queue, and the new queue holds nothing but old entries and
    requested ids; an empty request changes nothing. *)
Theorem add_to_queue_appends now (file_ids : list Z) (self : t) :
  lock self = false →
  let q := generation_queue (status self) in
  let q' := generation_queue (status (final (add_to_queue now file_ids self))) in
  q `prefix_of` q'
  ∧ (∀ x, x ∈ q' ↔ x ∈ q ∨ x ∈ file_ids)
  ∧ generation_queue (status (final (add_to_queue now [] self))) = q.
Proof.
  intros Hfree q q'. subst q q'. rewrite !add_to_queue_free by done.
  cbn [final status set_lock set_status]. rewrite !extend_queue_queue.
  split; [by apply prefix_app_r|]. split; [|by rewrite app_nil_r].
  intros x. rewrite elem_of_app, list_elem_of_filter. split.
  - intros [Hx|[_ Hx]]; auto.
  - intros [Hx|Hx]; [by left|].
    destruct (decide (x ∈ generation_queue (status self))); [by left|by right].
Qed.

Lemma add_to_queue_appends_witness :
  let self := init "t0" (mkFile None true) in
  let s := release (final (add_to_queue "t1" [2; 3] self)) in
  lock s = false
  ∧ generation_queue (status s) = [2; 3]
  ∧ [2; 3] `prefix_of` generation_queue (status (final (add_to_queue "t2" [3; 4] s))).
Proof.
  cbv zeta. split; [reflexivity|]. split; [reflexivity|].
  destruct (add_to_queue_appends "t2" [3; 4]
              (release (final (add_to_queue "t1" [2; 3] (init "t0" (mkFile None true))))))
    as (H & _); [reflexivity|].
  exact H.
Defined.

(** X16.  [save_status] on its own, with the lock free, always returns
    with the lock free again.  When the file can be written it holds
    afterwards exactly the dictionary in memory, stamped with the time
    of the call; when it cannot, the file is as before and one error is
    logged.  The dictionary changes in its time stamp only. *)
Theorem save_status_persists now (self : t) :
  lock self = false →
  ∃ s, save_status now self = returned () s
       ∧ lock s = false
       ∧ status s = set_last_updated now (status self)
       ∧ if writable (status_file self)
         then contents (status_file s) = Some (status s) ∧ log s = log self
         else status_file s = status_file self
              ∧ log s = log self ++ [(ERROR, "Error saving cache status"%string)].
Proof.
  intros Hfree. rewrite save_status_free by done. cbv zeta.
  unfold write_file. cbn. destruct (writable (status_file self)) eqn:Hw.
  - eexists. split; [reflexivity|]. by cbn.
  - eexists. split; [reflexivity|]. by cbn.
Qed.

Lemma save_status_persists_witness :
  let self := init "t0" (mkFile None true) in
  ∃ s, save_status "t1" self = returned () s
       ∧ contents (status_file s) = Some (status s)
       ∧ last_updated (status s) = "t1"%string.
Proof.
  cbv zeta.
  destruct (save_status_persists "t1" (init "t0" (mkFile None true)))
    as (s & Hs & _ & Hst & Hf); [reflexivity|].
  exists s. split; [exact Hs|]. split; [exact (proj1 Hf)|].
  rewrite Hst. reflexivity.
Defined.

(** X17.  The one way out of a mutating method.  When the counter
    [total_generated] stands at -1 (a value only a status file can
    bring in), [mark_completed] on a ledger whose lock is free raises
    [ZeroDivisionError]: the lock is free again, the completed record
    is stored, the counter is 0, the average is untouched and nothing
    is written. *)
Theorem mark_completed_zero_division now file_id cache_type generation_time
    (self : t) :
  lock self = false → total_generated (stats (status self)) = -1 →
  ∃ s, mark_completed now file_id cache_type generation_time self
       = raised ZeroDivisionError s
       ∧ lock s = false
       ∧ holds (completed (status s)) file_id cache_type = true
       ∧ total_generated (stats (status s)) = 0
       ∧ generation_time_avg (stats (status s)) = generation_time_avg (stats (status self))
       ∧ status_file s = status_file self.
Proof.
  intros Hfree Hn. unfold mark_completed, with_lock, acquire. rewrite Hfree.
  unfold bind, modify, update_stats. cbn. rewrite Hn. cbn.
  eexists. split; [reflexivity|]. cbn. by rewrite holds_put_eq.
Qed.

Lemma mark_completed_zero_division_witness :
  let self := set_status (set_stats (mkStats (-1) 0 0 0%float))
                (init "t0" (mkFile None true)) in
  ∃ s, mark_completed "t1" 1 "segments" 2%float self = raised ZeroDivisionError s
       ∧ lock s = false.
Proof.
  cbv zeta.
  destruct (mark_completed_zero_division "t1" 1 "segments" 2%float
              (set_status (set_stats (mkStats (-1) 0 0 0%float))
                 (init "t0" (mkFile None true))))
    as (s & Hs & Hl & _); [reflexivity|reflexivity|].
  exists s. split; [exact Hs|exact Hl].
Defined.

End ledger_more.

(** ** More on the orchestrator *)

Section orchestrator.

Import CacheManager.

Local Notation "'queue' m" :=
  (CacheStatus.generation_queue (CacheStatus.status (status m)))
  (at level 10, m at level 9, only parsing).

Lemma on_status_update_blocked now file_id (m : t) :
  ∃ s, on_status (CacheStatus.update_current_file now file_id) m
       = blocked (set_status (λ _, s) m)
       ∧ CacheStatus.generation_queue (CacheStatus.status s) = queue m
       ∧ CacheStatus.completed (CacheStatus.status s)
         = CacheStatus.completed (CacheStatus.status (status m)).
Proof.
  unfold on_status. destruct (CacheStatus.lock (status m)) eqn:Hl.
  - unfold CacheStatus.update_current_file. rewrite with_lock_held by done. eauto.
  - rewrite update_current_file_free by done. eauto.
Qed.

(** X18.  The orchestrator's [update_current_file] never gets to the
    trigger: in every state the call blocks in the ledger's
    [update_current_file], so it does not return, the queue is as
    before, no task is handed to the executor, and configuration and
    cache directories are untouched. *)
Theorem update_current_file_never_triggers now (file_sequence : list Z)
    (file_id : Z) (m : t) :
  let o := update_current_file now file_sequence file_id m in
  returns o = false
  ∧ queue (final o) = queue m
  ∧ submitted (final o) = submitted m
  ∧ config (final o) = config m
  ∧ (segments_dir (final o), plots_dir (final o), verification_dir (final o))
    = (segments_dir m, plots_dir m, verification_dir m).
Proof.
  cbv zeta. unfold update_current_file, bind.
  destruct (on_status_update_blocked now file_id m) as (s & -> & Hq & _).
  by cbn.
Qed.

Lemma on_status_mark_in_progress now file_id cache_type (m : t) :
  on_status (CacheStatus.mark_in_progress now file_id cache_type) m
  = blocked (set_status (λ _,
      if CacheStatus.lock (status m) then status m
      else CacheStatus.set_lock true (CacheStatus.set_status (λ st,
             CacheStatus.set_in_progress
               (CacheStatus.put file_id cache_type (CacheStatus.mkInProgress now)
                  (CacheStatus.in_progress st)) st) (status m))) m).
Proof.
  unfold on_status. destruct (CacheStatus.lock (status m)) eqn:Hl.
  - unfold CacheStatus.mark_in_progress. by rewrite with_lock_held.
  - by rewrite mark_in_progress_free.
Qed.

(** X19.  The generation of the verification type never completes.  In
    every state [_generate_verification_cache] blocks in
    [mark_in_progress]: it does not return, what [is_cached] reports is
    as before for every pair, and nothing is marked failed; when the
    lock was free the pair is left in progress. *)
Theorem verification_never_completes now (start_time end_time : float)
    (file_id : Z) (m : t) :
  let o := _generate_verification_cache now start_time end_time file_id m in
  returns o = false
  ∧ (∀ x cache_type, CacheStatus.is_cached x cache_type (status (final o))
                     = CacheStatus.is_cached x cache_type (status m))
  ∧ CacheStatus.failed (CacheStatus.status (status (final o)))
    = CacheStatus.failed (CacheStatus.status (status m))
  ∧ (if CacheStatus.lock (status m) then status (final o) = status m
     else CacheStatus.holds
            (CacheStatus.in_progress (CacheStatus.status (status (final o))))
            file_id "verification" = true).
Proof.
  cbv zeta. unfold _generate_verification_cache, bind.
  rewrite on_status_mark_in_progress.
  destruct (CacheStatus.lock (status m)) eqn:Hl; cbn; [done|].
  by rewrite holds_put_eq.
Qed.

(** X20.  [get_status_summary] needs the ledger's lock.  With the lock
    free it returns the queue length, the number of files in progress,
    completed and failed, and the number of entries of the three cache
    directories, and changes nothing; once the orchestrator's
    [update_current_file] has been called it never returns. *)
Theorem get_status_summary_needs_lock now (file_sequence : list Z)
    (file_id : Z) (m : t) :
  CacheStatus.lock (status m) = false →
  get_status_summary m
  = returned
      (mkSummary (CacheConfiguration.config (config m))
         (CacheStatus.status (status m))
         (length (queue m),
          size (CacheStatus.in_progress (CacheStatus.status (status m))),
          size (CacheStatus.completed (CacheStatus.status (status m))),
          size (CacheStatus.failed (CacheStatus.status (status m))))
         (size (segments_dir m), size (plots_dir m), size (verification_dir m)))
      m
  ∧ returns (get_status_summary
               (final (update_current_file now file_sequence file_id m))) = false.
Proof.
  intros Hfree. split.
  - unfold get_status_summary, bind, on_status, CacheStatus.get_queue_status,
      CacheStatus.with_lock, CacheStatus.acquire.
    rewrite Hfree. destruct m as [c [st lk f lg] sub sd pd vd l].
    cbn in *. by subst lk.
  - unfold update_current_file, bind, on_status.
    rewrite update_current_file_free by done. cbn [final].
    unfold get_status_summary, bind, on_status, CacheStatus.get_queue_status.
    by rewrite with_lock_held.
Qed.

Lemma get_status_summary_needs_lock_witness :
  CacheStatus.lock (status (init "t0")) = false
  ∧ returns (get_status_summary (init "t0")) = true
  ∧ returns (get_status_summary (final (update_current_file "t1" [1] 1 (init "t0"))))
    = false.
Proof.
  split; [reflexivity|].
  destruct (get_status_summary_needs_lock "t1" [1] 1 (init "t0")) as [H1 H2];
    [reflexivity|].
  split; [by rewrite H1|exact H2].
Defined.

(** X21.  A lookup of segments always returns and only ever counts: the
    two counters do not go down and together go up by one or by two;
    a result other than [None] means exactly one more hit and no miss;
    cache directories, queue, the three maps and the lock are as
    before. *)
Theorem get_cached_segments_only_counts (file_id : Z) (m : t) :
  ∃ v s, get_cached_segments file_id m = returned v s
         ∧ hits m ≤ hits s ∧ misses m ≤ misses s
         ∧ 1 ≤ (hits s - hits m) + (misses s - misses m) ≤ 2
         ∧ (v ≠ JNull → hits s = hits m + 1 ∧ misses s = misses m)
         ∧ (segments_dir s, plots_dir s, verification_dir s)
           = (segments_dir m, plots_dir m, verification_dir m)
         ∧ CacheStatus.set_status
             (CacheStatus.set_stats (CacheStatus.stats (CacheStatus.status (status m))))
             (status s) = status m.
Proof.
  unfold get_cached_segments.
  destruct (segments_dir m !! segments_file file_id) as [nd|].
  2:{ eexists _, _. split; [reflexivity|]. unfold hits, misses. cbn.
      repeat split; try lia; try done. by destruct m as [c [[] lk f lg] sub sd pd vd l]. }
  destruct (is_file nd && readable nd).
  2:{ eexists _, _. split; [reflexivity|]. unfold hits, misses. cbn.
      repeat split; try lia; try done. by destruct m as [c [[] lk f lg] sub sd pd vd l]. }
  destruct (parsed nd) as [payload|].
  - eexists _, _. split; [reflexivity|]. unfold hits, misses. cbn.
    repeat split; try lia; try done. by destruct m as [c [[] lk f lg] sub sd pd vd l].
  - eexists _, _. split; [reflexivity|]. unfold hits, misses. cbn.
    repeat split; try lia; try done. by destruct m as [c [[] lk f lg] sub sd pd vd l].
Qed.


End orchestrator.

(** ** More on cleanup *)

Section cleanup_more.

Import CacheManager.

Variable timedelta_float_hours : float → option Z.




End cleanup_more.

Section cleanup_more_examples.

Import CacheManager.



End cleanup_more_examples.

(** ** The routes of the configuration server *)

Section routes.

Import CacheConfiguration.

Lemma set_all_app before after cfg :
  ConfigServer.set_all (before ++ after) cfg
  = (ConfigServer.set_all before >> ConfigServer.set_all after) cfg.
Proof.
  revert cfg. induction before as [|[p v] before IH]; intros cfg; [done|].
  cbn [app ConfigServer.set_all]. unfold bind in *.
  destruct (set p v cfg); [apply IH|done|done].
Qed.

Lemma config_save_config self : config (save_config self) = config self.
Proof. unfold save_config. by destruct (write_file _ _). Qed.

Lemma set_returned key_path value self self' :
  set key_path value self = returned () self' →
  mappings_along (removelast (split key_path)) (config self') = true
  ∧ ∀ default, get key_path default self' = value.
Proof.
  unfold set.
  destruct (mappings_along (removelast (split key_path)) (config self)) eqn:Hm.
  - destruct (set_keys_succeeds _ (List.last (split key_path) EmptyString) value _ Hm)
      as (config' & -> & Hm' & Hget).
    intros [= <-]. rewrite config_save_config. cbn. split; [done|].
    intros default. unfold get. rewrite config_save_config. cbn.
    rewrite split_removelast_last. apply Hget.
  - by rewrite set_keys_raises.
Qed.

Lemma set_raised key_path value self e self' :
  set key_path value self = raised e self' →
  config self' = config self ∧ config_file self' = config_file self.
Proof.
  unfold set.
  destruct (mappings_along (removelast (split key_path)) (config self)) eqn:Hm.
  - destruct (set_keys_succeeds _ (List.last (split key_path) EmptyString) value _ Hm)
      as (config' & -> & _). done.
  - rewrite set_keys_raises by done. by intros [= _ <-].
Qed.

(** X25.  [/api/config/update] is not all-or-nothing.  When the items
    before a path have been set and [set] raises on that path, the
    response says ['success': False], the items before it stay set (and
    have been written), and the items after it are not looked at. *)
Theorem update_config_stops_at_failure (before after : list (string * json))
    (p : string) (v : json) (e : exn) (cfg cfg1 cfg2 : t) :
  ConfigServer.set_all before cfg = returned () cfg1 →
  set p v cfg1 = raised e cfg2 →
  ConfigServer.update_config (JDict (before ++ (p, v) :: after)) cfg = (false, cfg2)
  ∧ config cfg2 = config cfg1
  ∧ config_file cfg2 = config_file cfg1.
Proof.
  intros Hb Hp. split; [|by eapply set_raised].
  unfold ConfigServer.update_config. rewrite set_all_app. unfold bind at 1.
  rewrite Hb. cbn [ConfigServer.set_all]. unfold bind. by rewrite Hp.
Qed.

Lemma update_config_stops_at_failure_witness :
  let cfg := init NoFile (mkFile None true) in
  ∃ cfg2,
    ConfigServer.update_config
      (JDict [("cache_window.Nr"%string, JInt 5); ("auto_cleanup.x"%string, JInt 1);
              ("cache_window.Nf"%string, JInt 6)]) cfg = (false, cfg2)
    ∧ get_cache_window cfg2 = (JInt 5, JInt 10)
    ∧ contents (config_file cfg2) = Some (config cfg2).
Proof.
  cbv zeta. eexists.
  destruct (update_config_stops_at_failure
              [("cache_window.Nr"%string, JInt 5)]
              [("cache_window.Nf"%string, JInt 6)]
              "auto_cleanup.x" (JInt 1) TypeError
              (init NoFile (mkFile None true)) _ _ eq_refl eq_refl) as (H & _).
  split; [exact H|]. split; reflexivity.
Defined.

(** X26.  When [/api/config/update] answers ['success': True], the last
    item of the request is in force: [get] on its path gives its
    value.  (An earlier item may have been overwritten by a later
    one.) *)
Theorem update_config_last_item (items : list (string * json)) (p : string)
    (v default : json) (cfg cfg' : t) :
  ConfigServer.update_config (JDict (items ++ [(p, v)])) cfg = (true, cfg') →
  get p default cfg' = v.
Proof.
  unfold ConfigServer.update_config. rewrite set_all_app. unfold bind at 1.
  destruct (ConfigServer.set_all items cfg) as [[] cfg1|e cfg1|cfg1]; try done.
  cbn [ConfigServer.set_all]. unfold bind, ret.
  destruct (set p v cfg1) as [[] cfg2|e cfg2|cfg2] eqn:E; try done.
  intros [= <-]. by apply (set_returned _ _ _ _ E).
Qed.

Lemma update_config_last_item_witness :
  ∃ cfg',
    ConfigServer.update_config
      (JDict ([("a.b"%string, JInt 1)] ++ [("a"%string, JInt 2)]))
      (init NoFile (mkFile None true)) = (true, cfg')
    ∧ get "a" JNull cfg' = JInt 2
    ∧ get "a.b" JNull cfg' = JNull.
Proof.
  eexists. split; [reflexivity|]. split; [|reflexivity].
  apply (update_config_last_item [("a.b"%string, JInt 1)] "a" (JInt 2) JNull
           (init NoFile (mkFile None true))).
  reflexivity.
Defined.

Lemma set_keys_siblings key a b va vb default c c1 :
  a ≠ b → set_keys [key] a va c = (c1, None) →
  ∃ c2, set_keys [key] b vb c1 = (c2, None)
        ∧ get_keys [key; a] c2 default = va
        ∧ get_keys [key; b] c2 default = vb.
Proof.
  intros Hab. destruct c as [| | | | | |d]; try done. cbn [set_keys].
  set (d1 := match dict_get key d with Some _ => d | None => _ end).
  destruct (dict_get key d1) as [child|]; [|done].
  destruct child as [| | | | | |w]; try done.
  intros [= <-]. cbn [set_keys]. rewrite !dict_get_set_eq.
  eexists. split; [reflexivity|]. cbn.
  rewrite !dict_get_set_eq. rewrite dict_get_set_ne by done.
  by rewrite !dict_get_set_eq.
Qed.

(** X27.  [/api/cache/window/update] is all-or-nothing and keeps the
    window within bounds.  When it answers ['success': True] the
    configuration holds integers [Nr] in 0..50 and [Nf] in 0..100 as
    its window; when it answers ['success': False] (a body that is not
    an object, a value [int()] rejects, a value out of range, or a
    ["cache_window"] entry that is not a mapping) tree and file are as
    before. *)
Theorem update_cache_window_bounds (int_of_str : string → option Z)
    (data : json) (cfg : t) :
  let r := ConfigServer.update_cache_window int_of_str data cfg in
  if r.1
  then ∃ Nr Nf, 0 ≤ Nr ≤ 50 ∧ 0 ≤ Nf ≤ 100
                ∧ get_cache_window r.2 = (JInt Nr, JInt Nf)
  else config r.2 = config cfg ∧ config_file r.2 = config_file cfg.
Proof.
  cbv zeta. unfold ConfigServer.update_cache_window.
  destruct data as [| | | | | |d]; try done.
  destruct (ConfigServer.to_int _ (default (JInt 3) (dict_get "Nr" d))) as [Nr|];
    [|done].
  destruct (ConfigServer.to_int _ (default (JInt 10) (dict_get "Nf" d))) as [Nf|];
    [|done].
  destruct (Z.ltb_spec Nr 0); [done|]. destruct (Z.ltb_spec 50 Nr); [done|].
  destruct (Z.ltb_spec Nf 0); [done|]. destruct (Z.ltb_spec 100 Nf); [done|].
  cbn [orb]. unfold bind.
  destruct (set "cache_window.Nr" (JInt Nr) cfg) as [[] cfg1|e cfg1|cfg1] eqn:E1.
  - unfold set in E1. change (split "cache_window.Nr") with ["cache_window"; "Nr"]%string in E1.
    cbn [removelast List.last] in E1.
    destruct (set_keys ["cache_window"%string] "Nr" (JInt Nr) (config cfg))
      as [c1 [e|]] eqn:Hk; [done|].
    injection E1 as <-.
    destruct (set_keys_siblings "cache_window" "Nr" "Nf" (JInt Nr) (JInt Nf) JNull _ _
                ltac:(done) Hk) as (c2 & Hk2 & Hr & Hf).
    unfold set. change (split "cache_window.Nf") with ["cache_window"; "Nf"]%string.
    cbn [removelast List.last]. rewrite config_save_config. cbn [config].
    rewrite Hk2. cbn [fst snd]. exists Nr, Nf. split; [lia|]. split; [lia|].
    unfold get_cache_window, get. rewrite config_save_config. cbn [config].
    change (split "cache_window.Nr") with ["cache_window"; "Nr"]%string.
    change (split "cache_window.Nf") with ["cache_window"; "Nf"]%string.
    destruct c2 as [| | | | | |d2]; try done.
    cbn in Hr, Hf. cbn.
    destruct (dict_get "cache_window" d2) as [[| | | | | |w]|]; try done.
    destruct (dict_get "Nr" w), (dict_get "Nf" w); by subst.
  - cbn. by eapply set_raised.
  - unfold set in E1. by destruct (set_keys _ _ _ _) as [? [?|]].
Qed.

End routes.
